(** * cockroachdb-errors-example: classification, retry driver, logging facade

    A shallow embedding of the Go sources of the repository:

    - [crdberrors]: the part of the external library
      github.com/cockroachdb/errors that the repository calls
      (error chains, marks, domains);
    - [domain]: domain/errors.go;
    - [logx]: the structured logging facade;
    - [retry]: examples/02_domain_classification (RetryWithBackoff);
    - [panicdemo]: examples/03_panic_recovery (manual recovery);
    - [httpdemo]: examples/04_http_handler (UserService, handlers).

    Go's [error] interface value is an [option]: [None] is [nil]. *)

From Stdlib Require Import ZArith Lia List Bool Ascii String DecimalString.
From stdpp Require Import gmap strings list.

Open Scope Z_scope.

(** ** Machine integers

    [int], [int64] and [time.Duration] are 64-bit two's complement
    integers; arithmetic wraps around silently. *)

Module int64.

Definition min_int : Z := - 2 ^ 63.
Definition max_int : Z := 2 ^ 63 - 1.

Definition in_range (z : Z) : Prop := min_int <= z <= max_int.

Definition wrap (z : Z) : Z := (z + 2 ^ 63) mod 2 ^ 64 - 2 ^ 63.

Definition add (a b : Z) : Z := wrap (a + b).
Definition mul (a b : Z) : Z := wrap (a * b).

(** Go's [/] on integers truncates toward zero. *)
Definition div (a b : Z) : Z := wrap (Z.quot a b).

(** Go's [%] takes the sign of the dividend. *)
Definition rem (a b : Z) : Z := Z.rem a b.

End int64.

(** [%d] of an integer. *)
Definition itoa (z : Z) : string := NilZero.string_of_int (Z.to_int z).

(** [%v] of a bool. *)
Definition btoa (b : bool) : string := if b then "true" else "false".

(** ** The error library (external: github.com/cockroachdb/errors)

    Only the constructors and queries used by the repository.  Stack
    traces carry no information the repository reads back, so a
    [withStack] node stores only its cause. *)

Module crdberrors.

(** [type Domain string]; [NamedDomain] quotes the name, so named
    domains are distinct from [NoDomain] and from one another. *)
Inductive Domain : Type :=
| NoDomain
| NamedDomain (name : string).

#[global] Instance Domain_eq_dec : EqDecision Domain.
Proof. solve_decision. Defined.

(** markers.errorMark: the message and the type names of the chain. *)
Record errorMark : Type := mkMark { mark_msg : string; mark_types : list string }.

Inductive errNode : Type :=
| leafError (msg : string)                              (* *errutil.leafError *)
| ExchangeError (Code Message : string) (Retry : bool)  (* *domain.ExchangeError *)
| foreignError (ty : string) (msg : string)             (* a leaf of any other Go type *)
| withStack (cause : errNode)
| withPrefix (cause : errNode) (prefix : string)
| withMark (cause : errNode) (mark : errorMark)
| withDomain (cause : errNode) (domain : Domain)
| withHint (cause : errNode) (hint : string)
| withDetail (cause : errNode) (detail : string)
| withTelemetry (cause : errNode) (keys : list string).

Definition error : Type := option errNode.

(** The [Error() string] method of every node type. *)
Fixpoint Error (e : errNode) : string :=
  match e with
  | leafError msg => msg
  | ExchangeError code message _ =>
      "exchange error [" +:+ code +:+ "]: " +:+ message
  | foreignError _ msg => msg
  | withStack c => Error c
  | withPrefix c p => if String.eqb p "" then Error c else p +:+ ": " +:+ Error c
  | withMark c _ => Error c
  | withDomain c _ => Error c
  | withHint c _ => Error c
  | withDetail c _ => Error c
  | withTelemetry c _ => Error c
  end.

(** errbase.UnwrapOnce *)
Definition UnwrapOnce (e : errNode) : error :=
  match e with
  | leafError _ | ExchangeError _ _ _ | foreignError _ _ => None
  | withStack c | withPrefix c _ | withMark c _ | withDomain c _
  | withHint c _ | withDetail c _ | withTelemetry c _ => Some c
  end.

(** errbase.GetTypeMark: the Go type name of a node. *)
Definition typeName (e : errNode) : string :=
  match e with
  | leafError _ => "github.com/cockroachdb/errors/errutil/*errutil.leafError"
  | ExchangeError _ _ _ =>
      "github.com/kis9a/cockroachdb-errors-example/domain/*domain.ExchangeError"
  | foreignError ty _ => ty
  | withStack _ => "github.com/cockroachdb/errors/withstack/*withstack.withStack"
  | withPrefix _ _ => "github.com/cockroachdb/errors/errutil/*errutil.withPrefix"
  | withMark _ _ => "github.com/cockroachdb/errors/markers/*markers.withMark"
  | withDomain _ _ => "github.com/cockroachdb/errors/domains/*domains.withDomain"
  | withHint _ _ => "github.com/cockroachdb/errors/hintdetail/*hintdetail.withHint"
  | withDetail _ _ => "github.com/cockroachdb/errors/hintdetail/*hintdetail.withDetail"
  | withTelemetry _ _ =>
      "github.com/cockroachdb/errors/telemetrykeys/*telemetrykeys.withTelemetry"
  end.

(** The nodes visited by [for c := err; c != nil; c = UnwrapOnce(c)]. *)
Fixpoint chain (e : errNode) : list errNode :=
  e :: match e with
       | leafError _ | ExchangeError _ _ _ | foreignError _ _ => []
       | withStack c | withPrefix c _ | withMark c _ | withDomain c _
       | withHint c _ | withDetail c _ | withTelemetry c _ => chain c
       end.

(** markers.getMark: an explicit mark wins, otherwise message and
    type names of the whole chain below the node. *)
Definition getMark (e : errNode) : errorMark :=
  match e with
  | withMark _ m => m
  | _ => mkMark (Error e) (map typeName (chain e))
  end.

Fixpoint equalTypes (t1 t2 : list string) : bool :=
  match t1, t2 with
  | [], [] => true
  | a :: t1', b :: t2' => String.eqb a b && equalTypes t1' t2'
  | _, _ => false
  end.

(** markers.equalMarks *)
Definition equalMarks (m1 m2 : errorMark) : bool :=
  String.eqb (mark_msg m1) (mark_msg m2)
  && equalTypes (mark_types m1) (mark_types m2).

(** markers.Is.  The library first compares every node of the chain
    with [reference] by identity and then by mark; an identical node
    has an equal mark, so the second loop decides the result.  No
    error type of the repository defines an [Is] method. *)
Definition Is (err reference : error) : bool :=
  match reference with
  | None => match err with None => true | Some _ => false end
  | Some r =>
      match err with
      | None => false
      | Some e => existsb (fun c => equalMarks (getMark c) (getMark r)) (chain e)
      end
  end.

(** markers.Mark.  The repository only passes its package-level
    sentinels as [reference]; with a nil reference the library fails
    while computing the mark, which the last branch stands for. *)
Definition Mark (err reference : error) : error :=
  match err with
  | None => None
  | Some e =>
      match reference with
      | Some r => Some (withMark e (getMark r))
      | None => Some (withMark e (mkMark "" []))
      end
  end.

(** withstack.WithStack *)
Definition WithStack (err : error) : error :=
  match err with None => None | Some e => Some (withStack e) end.

(** errutil.New: a leaf under a stack trace. *)
Definition New (msg : string) : error := Some (withStack (leafError msg)).

(** errutil.Errorf without a [%w] verb, on the formatted message. *)
Definition Errorf (formatted : string) : error :=
  Some (withStack (leafError formatted)).

(** errutil.WithMessage *)
Definition WithMessage (err : error) (msg : string) : error :=
  match err with None => None | Some e => Some (withPrefix e msg) end.

(** errutil.Wrap: nil stays nil, an empty message adds no prefix. *)
Definition Wrap (err : error) (msg : string) : error :=
  match err with
  | None => None
  | Some _ =>
      WithStack (if String.eqb msg "" then err else WithMessage err msg)
  end.

(** errutil.Wrapf with a non-empty format, on the formatted message. *)
Definition Wrapf (err : error) (formatted : string) : error :=
  match err with
  | None => None
  | Some _ => WithStack (WithMessage err formatted)
  end.

(** domains.WithDomain *)
Definition WithDomain (err : error) (d : Domain) : error :=
  match err with None => None | Some e => Some (withDomain e d) end.

(** domains.GetDomain: the outermost attachment. *)
Fixpoint getDomainNode (e : errNode) : Domain :=
  match e with
  | withDomain _ d => d
  | leafError _ | ExchangeError _ _ _ | foreignError _ _ => NoDomain
  | withStack c | withPrefix c _ | withMark c _
  | withHint c _ | withDetail c _ | withTelemetry c _ => getDomainNode c
  end.

Definition GetDomain (err : error) : Domain :=
  match err with None => NoDomain | Some e => getDomainNode e end.

(** hintdetail.WithHint, hintdetail.WithDetailf (formatted),
    telemetrykeys.WithTelemetry *)
Definition WithHint (err : error) (msg : string) : error :=
  match err with None => None | Some e => Some (withHint e msg) end.

Definition WithDetailf (err : error) (formatted : string) : error :=
  match err with None => None | Some e => Some (withDetail e formatted) end.

Definition WithTelemetry (err : error) (keys : list string) : error :=
  match err with None => None | Some e => Some (withTelemetry e keys) end.

(** errors.As with a target of type [**domain.ExchangeError]: the
    first node of the chain that is an [*ExchangeError]. *)
Fixpoint asExchangeError (e : errNode) : option (string * string * bool) :=
  match e with
  | ExchangeError code message retry => Some (code, message, retry)
  | leafError _ | foreignError _ _ => None
  | withStack c | withPrefix c _ | withMark c _ | withDomain c _
  | withHint c _ | withDetail c _ | withTelemetry c _ => asExchangeError c
  end.

End crdberrors.

(** ** domain/errors.go *)

Module domain.
Import crdberrors.

Definition DomainUsecase : Domain := NamedDomain "usecase".
Definition DomainAdapters : Domain := NamedDomain "adapters".
Definition DomainExchange : Domain := NamedDomain "exchange".

Definition ErrTemporary : error := New "temporary error".
Definition ErrPermanent : error := New "permanent error".
Definition ErrNotFound : error := New "not found".
Definition ErrTimeout : error := New "timeout".
Definition ErrRateLimited : error := New "rate limited".

Definition MarkTemporary (err : error) : error := Mark err ErrTemporary.
Definition IsTemporary (err : error) : bool := Is err ErrTemporary.
Definition MarkPermanent (err : error) : error := Mark err ErrPermanent.
Definition IsPermanent (err : error) : bool := Is err ErrPermanent.

Definition NewExchangeError (code message : string) (retry : bool) : error :=
  let base := Some (ExchangeError code message retry) in
  let wrapped := WithDomain (WithStack base) DomainExchange in
  let wrapped :=
    WithDetailf wrapped ("code=" +:+ code +:+ " retry=" +:+ btoa retry) in
  let wrapped :=
    if retry then
      WithHint (MarkTemporary wrapped) "This error is temporary and can be retried"
    else
      WithHint (MarkPermanent wrapped)
        "This error is permanent and should not be retried" in
  WithTelemetry wrapped ["exchange.error." +:+ code].

Definition WrapWithDomain (err : error) (msg : string) (d : Domain) : error :=
  match err with
  | None => None
  | Some _ => WithDomain (Wrap err msg) d
  end.

Definition WrapWithStack (err : error) (msg : string) : error :=
  match err with
  | None => None
  | Some _ => WithStack (Wrap err msg)
  end.

Definition IsExchangeCode (err : error) (code : string) : bool :=
  match err with
  | None => false
  | Some e =>
      match asExchangeError e with
      | Some (c, _, _) => String.eqb c code
      | None => false
      end
  end.

End domain.


(** ** The logging facade (package logx) *)

Module logx.
Import crdberrors.

(** Values of Go's [any] that the repository hands to the facade.
    [VAttr] is an [slog.Attr] boxed by [attrsToAny]. *)
Inductive any : Type :=
| VNil
| VString (s : string)
| VInt (n : Z)
| VBool (b : bool)
| VDuration (d : Z)
| VError (e : errNode)
| VOther (ty repr : string)
| VAttr (key : string) (value : any).

(** slog.Attr *)
Record Attr : Type := mkAttr { Key : string; Value : any }.

(** slog.Any and slog.String *)
Definition slog_Any (k : string) (v : any) : Attr := mkAttr k v.
Definition slog_String (k v : string) : Attr := mkAttr k (VString v).

Inductive Level : Type := LevelDebug | LevelInfo | LevelWarn | LevelError.

(** SetLevel's switch: any unknown name means info. *)
Definition parseLevel (level : string) : Level :=
  if String.eqb level "debug" then LevelDebug
  else if String.eqb level "info" then LevelInfo
  else if String.eqb level "warn" then LevelWarn
  else if String.eqb level "error" then LevelError
  else LevelInfo.

(** What a facade function passes to the current [*slog.Logger]. *)
Record Call : Type := mkCall { call_level : Level; call_msg : string; call_args : list any }.

(** attrsToAny: every attribute boxed, in order. *)
Definition attrsToAny (attrs : list Attr) : list any :=
  map (fun a => VAttr (Key a) (Value a)) attrs.

Section Facade.

(** fmt.Sprint, from the Go standard library. *)
Variable Sprint : any -> string.

(** The attributes [ErrorErr] and [WarnErr] extract from a non-nil
    error (message, verbose rendering, source location, hints,
    details, domain); they depend on the captured stack. *)
Variable errorAttrs : errNode -> list Attr.
Variable warnAttrs : errNode -> list Attr.

(** [k, ok := key.(string); if !ok { k = Sprint(key) }] *)
Definition keyText (key : any) : string :=
  match key with
  | VString k => k
  | _ => Sprint key
  end.

(** The loop [for i := 0; i+1 < len(kv); i += 2] of argsToAttrs. *)
Fixpoint attrs_loop (fuel i : nat) (kv : list any) (attrs : list Attr) : list Attr :=
  match fuel with
  | O => attrs
  | S fuel' =>
      if (i + 1 <? length kv)%nat then
        match kv !! i, kv !! (i + 1)%nat with
        | Some key, Some val =>
            attrs_loop fuel' (i + 2)%nat kv (attrs ++ [slog_Any (keyText key) val])
        | _, _ => attrs
        end
      else attrs
  end.

Definition argsToAttrs (kv : list any) : list Attr :=
  let kv :=
    if negb (length kv mod 2 =? 0)%nat then take (length kv - 1) kv else kv in
  attrs_loop (length kv) 0 kv [].

Definition Debug (msg : string) (args : list any) : Call :=
  mkCall LevelDebug msg (attrsToAny (argsToAttrs args)).

Definition Info (msg : string) (args : list any) : Call :=
  mkCall LevelInfo msg (attrsToAny (argsToAttrs args)).

Definition Warn (msg : string) (args : list any) : Call :=
  mkCall LevelWarn msg (attrsToAny (argsToAttrs args)).

Definition Error (msg : string) (args : list any) : Call :=
  mkCall LevelError msg (attrsToAny (argsToAttrs args)).

Definition ErrorErr (msg : string) (err : error) (kv : list any) : Call :=
  match err with
  | None => Error msg kv
  | Some e => mkCall LevelError msg (attrsToAny (errorAttrs e ++ argsToAttrs kv))
  end.

Definition WarnErr (msg : string) (err : error) (kv : list any) : Call :=
  match err with
  | None => Warn msg kv
  | Some e => mkCall LevelWarn msg (attrsToAny (warnAttrs e ++ argsToAttrs kv))
  end.

(** The pairing the facade is meant to perform: consecutive
    arguments taken two by two, a trailing single one ignored. *)
Fixpoint pairAttrs (kv : list any) : list Attr :=
  match kv with
  | key :: val :: rest => slog_Any (keyText key) val :: pairAttrs rest
  | _ => []
  end.

End Facade.

(** An argument list written as a sequence of key-value pairs. *)
Definition unpair (ps : list (any * any)) : list any :=
  flat_map (fun p => [p.1; p.2]) ps.

Section Panics.

Variable Sprint : any -> string.
Variable errorAttrs : errNode -> list Attr.

(** [crdberrors.WithStack(crdberrors.Errorf("panic recovered: %v", r))];
    [%v] of one operand is what [Sprint] prints. *)
Definition panicError (r : any) : error :=
  WithStack (Errorf ("panic recovered: " +:+ Sprint r)).


End Panics.

End logx.

(** ** The retry driver (examples/02_domain_classification) *)

Module retry.
Import crdberrors domain.

(** time.Duration counts nanoseconds. *)
Definition Millisecond : Z := 1000000.
Definition Second : Z := 1000000000.

(** A context is observed through [Done()] and [Err()] only. *)
Record Context : Type := mkContext { done : bool }.

Definition Background : Context := mkContext false.

(** [ctx, cancel := context.WithCancel(parent)]: the child is done
    when the parent is or once [cancel] has been called. *)
Definition WithCancel (parent : Context) : Context := parent.

(** context.Canceled *)
Definition Canceled : error := Some (foreignError "*errors.errorString" "context canceled").

Definition ctxErr (ctx : Context) : error := if done ctx then Canceled else None.

(** What a run of the driver does, in order. *)
Inductive event : Type :=
| Invoke (attempt : Z)                                    (* operation(ctx) *)
| LogInfo (msg : string) (kv : list logx.any)             (* logx.Info *)
| LogWarnErr (msg : string) (err : error) (kv : list logx.any)
| LogErrorErr (msg : string) (err : error) (kv : list logx.any)
| Wait (d : Z)                                            (* <-time.After(d) *)
| Cancelled.                                              (* <-ctx.Done() *)

Section Driver.

(** The operation is a closure: it reads and updates its captured
    variables [St], sees the driver's context, and returns. *)
Variable St : Type.

Definition Operation : Type := Context -> St -> error * St.

Record Result : Type := mkResult { ret : error; final : St; trace : list event }.

Definition after (evs : list event) (r : option Result) : option Result :=
  match r with
  | Some r' => Some (mkResult (ret r') (final r') (evs ++ trace r'))
  | None => None
  end.

(** [d := delay + time.Duration(int64(delay) / 5)] *)
Definition jitter (delay : Z) : Z := int64.add delay (int64.div delay 5).

(** [delay *= 2; if delay > 5*time.Second { delay = 5 * time.Second }] *)
Definition nextDelay (delay : Z) : Z :=
  let delay' := int64.mul delay 2 in
  if 5 * Second <? delay' then 5 * Second else delay'.

Variable operation : Operation.
Variable maxRetries : Z.
Variable ctx : Context.

(** The [for attempt := 1; attempt <= maxRetries; attempt++] loop
    from the state at its head; one unit of fuel per iteration.
    In the [select], the timer is the only ready case unless the
    context is done. *)
Fixpoint retry_loop (fuel : nat) (attempt delay : Z) (lastErr : error) (s : St)
  : option Result :=
  if attempt <=? maxRetries then
    match fuel with
    | O => None
    | S fuel' =>
        let (err, s1) := operation ctx s in
        match err with
        | None =>
            Some (mkResult None s1
                    (Invoke attempt ::
                     if 1 <? attempt then
                       [LogInfo "Operation succeeded after retry"
                          [logx.VString "attempt"; logx.VInt attempt;
                           logx.VString "max_retries"; logx.VInt maxRetries]]
                     else []))
        | Some _ =>
            if negb (IsTemporary err) then
              Some (mkResult err s1
                      [Invoke attempt;
                       LogErrorErr "Operation failed with permanent error" err
                         [logx.VString "attempt"; logx.VInt attempt;
                          logx.VString "retry"; logx.VBool false]])
            else if attempt <? maxRetries then
              let warn :=
                LogWarnErr "Operation failed with temporary error, retrying" err
                  [logx.VString "attempt"; logx.VInt attempt;
                   logx.VString "max_retries"; logx.VInt maxRetries;
                   logx.VString "retry_delay"; logx.VDuration delay] in
              let d := jitter delay in
              if done ctx then
                Some (mkResult (ctxErr ctx) s1 [Invoke attempt; warn; Cancelled])
              else
                after [Invoke attempt; warn; Wait d]
                  (retry_loop fuel' (int64.add attempt 1) (nextDelay delay) err s1)
            else
              after [Invoke attempt;
                     LogErrorErr "Operation failed after max retries" err
                       [logx.VString "attempt"; logx.VInt attempt;
                        logx.VString "max_retries"; logx.VInt maxRetries]]
                (retry_loop fuel' (int64.add attempt 1) delay err s1)
        end
    end
  else
    Some (mkResult
            (Wrapf lastErr
               ("operation failed after " +:+ itoa maxRetries +:+ " attempts"))
            s []).

End Driver.

Arguments mkResult {St}.
Arguments ret {St}.
Arguments final {St}.
Arguments trace {St}.
Arguments after {St}.
Arguments retry_loop {St}.

(** RetryWithBackoff: the context is made inside the driver from the
    background context; its [cancel] is deferred to the return. *)
Definition RetryWithBackoff {St : Type} (fuel : nat) (operation : Operation St)
    (maxRetries : Z) (initialDelay : Z) (s : St) : option (Result St) :=
  let ctx := WithCancel Background in
  retry_loop operation maxRetries ctx fuel 1 initialDelay None s.

(** Reading a trace. *)
Fixpoint invocations (tr : list event) : nat :=
  match tr with
  | [] => O
  | Invoke _ :: tr' => S (invocations tr')
  | _ :: tr' => invocations tr'
  end.

Fixpoint waits (tr : list event) : list Z :=
  match tr with
  | [] => []
  | Wait d :: tr' => d :: waits tr'
  | _ :: tr' => waits tr'
  end.

Fixpoint cancelled (tr : list event) : bool :=
  match tr with
  | [] => false
  | Cancelled :: _ => true
  | _ :: tr' => cancelled tr'
  end.

(** The state of the closure after [k] invocations and the result of
    invocation [k + 1]. *)
Fixpoint op_state {St : Type} (op : Operation St) (ctx : Context) (s : St) (k : nat) : St :=
  match k with
  | O => s
  | S k' => snd (op ctx (op_state op ctx s k'))
  end.

Definition op_result {St : Type} (op : Operation St) (ctx : Context) (s : St) (k : nat)
  : error :=
  fst (op ctx (op_state op ctx s k)).

(** The waits of [m] consecutive retry rounds that start at [delay]. *)
Fixpoint waits_from (delay : Z) (m : nat) : list Z :=
  match m with
  | O => []
  | S m' => jitter delay :: waits_from (nextDelay delay) m'
  end.

(** The wait of a round whose delay sits at the five-second ceiling. *)
Definition cappedWait : Z := jitter (5 * Second).

(** Each wait is longer than the one before, or both sit at the
    ceiling. *)
Fixpoint increasing_then_capped (ws : list Z) : bool :=
  match ws with
  | w :: ((w' :: _) as rest) =>
      ((w <? w') || ((w =? cappedWait) && (w' =? cappedWait)))
      && increasing_then_capped rest
  | _ => true
  end.

(** ExchangeAPI.FetchPrice, DatabaseService.SavePrice and
    PriceService.UpdatePrice; the closure state is [failureCount].
    The two prices the code returns, 0 and 50000.0, are whole numbers. *)
Definition FetchPrice (failureCount : Z) : (Z * error) * Z :=
  let failureCount := int64.add failureCount 1 in
  if failureCount =? 1 then
    ((0, NewExchangeError "NETWORK_ERROR" "connection timeout" true), failureCount)
  else if failureCount =? 2 then
    ((0, NewExchangeError "RATE_LIMIT" "too many requests" true), failureCount)
  else if failureCount =? 3 then
    ((50000, None), failureCount)
  else
    ((0, NewExchangeError "INVALID_SYMBOL" "symbol not found" false), failureCount).

Definition SavePrice : error :=
  let err := New "connection pool exhausted" in
  let err := MarkTemporary err in
  let err := WithDomain err DomainAdapters in
  let err := WithHint err "Database connection pool is full, retry after a short delay" in
  WrapWithStack err "failed to save price to database".

Definition UpdatePrice : Operation Z :=
  fun _ failureCount =>
    let '(price, err, failureCount) := FetchPrice failureCount in
    match err with
    | Some _ => (WrapWithDomain err "failed to update price" DomainUsecase, failureCount)
    | None =>
        match SavePrice with
        | Some e =>
            (WrapWithDomain (Some e) "failed to persist price" DomainUsecase, failureCount)
        | None => (None, failureCount)
        end
    end.

(** Two more closures: one that fails temporarily until its [n]-th
    invocation, counting invocations in its state, and one that
    fails temporarily every time. *)
Definition failing_until (n : Z) : Operation Z :=
  fun _ count =>
    let count := int64.add count 1 in
    (if count <? n then MarkTemporary (New "connection refused") else None, count).

Definition always_failing : Operation unit :=
  fun _ s => (MarkTemporary (New "connection refused"), s).




End retry.

(** ** Manual recovery (examples/03_panic_recovery) *)

Module panicdemo.
Import crdberrors logx.




Section Recovery.

Variable Sprint : any -> string.
Variable errorAttrs : errNode -> list Attr.


End Recovery.

End panicdemo.

(** ** The user store (examples/04_http_handler) *)

Module httpdemo.
Import crdberrors domain.

Record User : Type := mkUser { ID : Z; Name : string; Email : string; CreatedAt : Z }.

(** [UserService.users], a [map[int]*User]; a map holds far fewer
    than 2^63 entries, so [len(s.users) + 1] does not wrap. *)
Abbreviation users_map := (gmap Z User).

(** NewUserService; the arguments are the three clock readings. *)
Definition NewUserService (t1 t2 t3 : Z) : users_map :=
  <[3 := mkUser 3 "Charlie" "charlie@example.com" t3]>
    (<[2 := mkUser 2 "Bob" "bob@example.com" t2]>
       (<[1 := mkUser 1 "Alice" "alice@example.com" t1]> ∅)).

(** GetUser; [now] is [time.Now().Unix()].  Returns the user, the
    error and the store as the call leaves it. *)
Definition GetUser (now id : Z) (users : users_map) : option User * error * users_map :=
  if int64.rem now 10 =? 0 then
    let err := New "database connection timeout" in
    let err := MarkTemporary err in
    let err := WithDomain err DomainAdapters in
    let err := WithHint err "Retry the request" in
    (None, WrapWithStack err "failed to fetch user from database", users)
  else
    match users !! id with
    | None =>
        let err := Errorf ("user with id " +:+ itoa id +:+ " not found") in
        let err := WithDomain err DomainAdapters in
        let err := MarkPermanent err in
        (None, err, users)
    | Some user => (Some user, None, users)
    end.

(** CreateUser; [now] is [time.Now()]. *)
Definition CreateUser (now : Z) (name email : string) (users : users_map)
  : option User * error * users_map :=
  if String.eqb name "" then
    let err := New "name is required" in
    let err := WithDomain err DomainUsecase in
    let err := MarkPermanent err in
    let err := WithHint err "Provide a valid name" in
    (None, err, users)
  else if String.eqb email "" then
    let err := New "email is required" in
    let err := WithDomain err DomainUsecase in
    let err := MarkPermanent err in
    let err := WithHint err "Provide a valid email address" in
    (None, err, users)
  else
    let newID := Z.of_nat (size users) + 1 in
    let user := mkUser newID name email now in
    (Some user, None, <[newID := user]> users).

(** The stores a server can hold: the initial one and whatever the
    two operations leave behind. *)
Inductive reachable : users_map -> Prop :=
| reach_new t1 t2 t3 : reachable (NewUserService t1 t2 t3)
| reach_get now id users : reachable users -> reachable (GetUser now id users).2
| reach_create now name email users :
    reachable users -> reachable (CreateUser now name email users).2.

(** The keys of a store are exactly [1 .. len]. *)
Definition dense (users : users_map) : Prop :=
  forall k : Z, is_Some (users !! k) <-> 1 <= k <= Z.of_nat (size users).

(** The two errors of [GetUser]. *)
Definition timeoutError : error :=
  WrapWithStack
    (WithHint (WithDomain (MarkTemporary (New "database connection timeout"))
                 DomainAdapters) "Retry the request")
    "failed to fetch user from database".

Definition notFoundError (id : Z) : error :=
  MarkPermanent
    (WithDomain (Errorf ("user with id " +:+ itoa id +:+ " not found")) DomainAdapters).

(** Every stored user carries its key as [ID]. *)
Definition ids_match (users : users_map) : Prop :=
  forall (k : Z) (u : User), users !! k = Some u -> ID u = k.

(** *** The handlers *)

Definition StatusOK : Z := 200.
Definition StatusCreated : Z := 201.
Definition StatusBadRequest : Z := 400.
Definition StatusNotFound : Z := 404.
Definition StatusInternalServerError : Z := 500.

Record ErrorResponse : Type :=
  mkErrorResponse { resp_Error : string; resp_Code : string; resp_Details : string }.

(** What respondJSON encodes: a user (a nil pointer encodes as null)
    or an error response.  Writing to the client is taken to succeed. *)
Inductive Body : Type :=
| BodyUser (u : User)
| BodyNull
| BodyError (e : ErrorResponse).

(** What a handler does, in order. *)
Inductive hevent : Type :=
| HInfo (msg : string) (kv : list logx.any)                  (* logx.WithContext(ctx).Info *)
| HErrorErr (msg : string) (err : error) (kv : list logx.any)  (* logx.ErrorErr *)
| HRespond (status : Z) (body : Body).                       (* respondJSON *)

Fixpoint responses (evs : list hevent) : list (Z * Body) :=
  match evs with
  | [] => []
  | HRespond status body :: evs' => (status, body) :: responses evs'
  | _ :: evs' => responses evs'
  end.

(** [strings.Trim(s, "/")] and [strings.TrimPrefix(s, prefix)] *)
Fixpoint trimLeftSlash (s : string) : string :=
  match s with
  | String c s' => if Ascii.eqb c "/"%char then trimLeftSlash s' else s
  | EmptyString => EmptyString
  end.

Definition trimSlash (s : string) : string :=
  String.rev (trimLeftSlash (String.rev (trimLeftSlash s))).

Definition TrimPrefix (s pre : string) : string :=
  if String.prefix pre s then String.substring (String.length pre)
                                (String.length s - String.length pre) s
  else s.

(** What the JSON decoder made of the request body: an error, or the
    two fields together with [dec.More()]. *)
Inductive decodeResult : Type :=
| DecodeError (e : errNode)
| Decoded (name email : string) (more : bool).

Section Handlers.

(** strconv.Atoi, crdberrors.GetAllHints and [%v] of a domain. *)
Variable Atoi : string -> Z * error.
Variable GetAllHints : errNode -> list string.
Variable FormatDomain : Domain -> string.

(** The request id: the X-Request-ID header, or one made from the
    clock ([nano] is [time.Now().UnixNano()]). *)
Definition requestIDOf (header : string) (nano : Z) : string :=
  if String.eqb header "" then "req_" +:+ itoa nano else header.

(** respondError logs and responds; every caller passes a non-nil
    error (with nil, [err.Error()] fails before anything is written). *)
Definition respondError (status : Z) (err : error) (requestID : string) : list hevent :=
  match err with
  | Some e =>
      [HErrorErr "API request failed" err
         [logx.VString "request_id"; logx.VString requestID;
          logx.VString "status"; logx.VInt status];
       HRespond status
         (BodyError
            (mkErrorResponse (Error e)
               (if decide (GetDomain err = NoDomain) then ""
                else FormatDomain (GetDomain err))
               (match GetAllHints e with h :: _ => h | [] => "" end)))]
  | None => []
  end.

(** getUserHandler; [header] is the X-Request-ID header, [path] the
    URL path, [now] the clock reading inside GetUser. *)
Definition getUserHandler (header path : string) (nano now : Z) (users : users_map)
  : list hevent * users_map :=
  let requestID := requestIDOf header nano in
  let idStr := trimSlash (TrimPrefix path "/users/") in
  let (id, err) := Atoi idStr in
  match err with
  | Some _ =>
      let err := Wrap err "invalid user ID" in
      let err := MarkPermanent err in
      (respondError StatusBadRequest err requestID, users)
  | None =>
      let fetching :=
        HInfo "Fetching user"
          [logx.VString "request_id"; logx.VString requestID;
           logx.VString "user_id"; logx.VInt id] in
      let '(user, err, users) := GetUser now id users in
      match err with
      | Some _ =>
          let status :=
            if IsPermanent err then StatusNotFound else StatusInternalServerError in
          (fetching :: respondError status err requestID, users)
      | None =>
          ([fetching;
            HInfo "User fetched successfully"
              [logx.VString "request_id"; logx.VString requestID;
               logx.VString "user_id"; logx.VInt id];
            HRespond StatusOK
              (match user with Some u => BodyUser u | None => BodyNull end)],
           users)
      end
  end.

(** createUserHandler; [decoded] is the outcome of decoding the body,
    [now] the clock reading inside CreateUser.  CreateUser returns a
    user whenever it returns no error, so the branches for a missing
    user are never taken. *)
Definition createUserHandler (header : string) (nano now : Z) (decoded : decodeResult)
    (users : users_map) : list hevent * users_map :=
  let requestID := requestIDOf header nano in
  match decoded with
  | DecodeError e =>
      let err := Wrap (Some e) "invalid JSON request" in
      let err := MarkPermanent err in
      (respondError StatusBadRequest err requestID, users)
  | Decoded name email true =>
      let err := New "extraneous data after JSON object" in
      let err := MarkPermanent err in
      (respondError StatusBadRequest err requestID, users)
  | Decoded name email false =>
      let creating :=
        HInfo "Creating user"
          [logx.VString "request_id"; logx.VString requestID;
           logx.VString "name"; logx.VString name;
           logx.VString "email"; logx.VString email] in
      let '(user, err, users) := CreateUser now name email users in
      match err with
      | Some _ =>
          let status :=
            if IsPermanent err then StatusBadRequest else StatusInternalServerError in
          (creating :: respondError status err requestID, users)
      | None =>
          ([creating;
            HInfo "User created successfully"
              [logx.VString "request_id"; logx.VString requestID;
               logx.VString "user_id";
               logx.VInt (match user with Some u => ID u | None => 0 end)];
            HRespond StatusCreated
              (match user with Some u => BodyUser u | None => BodyNull end)],
           users)
      end
  end.

End Handlers.

End httpdemo.

(** * Properties *)

(** ** Properties of the machine integers *)

Module int64_facts.
Import int64.

Lemma wrap_id z : in_range z -> wrap z = z.
Proof.
  unfold in_range, wrap, min_int, max_int. intros H.
  rewrite Z.mod_small; lia.
Qed.

Lemma wrap_in_range z : in_range (wrap z).
Proof.
  unfold in_range, wrap, min_int, max_int.
  pose proof (Z.mod_pos_bound (z + 2 ^ 63) (2 ^ 64)). lia.
Qed.

End int64_facts.

(** ** Strings *)

Lemma append_assoc (a b c : string) : (a +:+ b) +:+ c = a +:+ b +:+ c.
Proof.
  induction a as [|ch a IH]; [reflexivity|].
  change (String ch ((a +:+ b) +:+ c) = String ch (a +:+ b +:+ c)).
  now rewrite IH.
Qed.

(** ** Properties of the classification marks *)

Module domain_facts.
Import crdberrors domain.

Lemma equalMarks_types m1 m2 :
  equalTypes (mark_types m1) (mark_types m2) = false -> equalMarks m1 m2 = false.
Proof. intros H. unfold equalMarks. rewrite H. apply andb_false_r. Qed.

(** [Is] looks at the outermost node and then at the rest of the chain. *)
Lemma Is_unfold (e r : errNode) :
  Is (Some e) (Some r) =
  equalMarks (getMark e) (getMark r)
  || match UnwrapOnce e with
     | Some c => Is (Some c) (Some r)
     | None => false
     end.
Proof. destruct e; reflexivity. Qed.

Lemma IsTemporary_MarkTemporary (e : errNode) :
  IsTemporary (MarkTemporary (Some e)) = true.
Proof. reflexivity. Qed.

Lemma IsPermanent_MarkPermanent (e : errNode) :
  IsPermanent (MarkPermanent (Some e)) = true.
Proof. reflexivity. Qed.

Lemma IsPermanent_MarkTemporary (e : errNode) :
  IsPermanent (MarkTemporary (Some e)) = IsPermanent (Some e).
Proof. reflexivity. Qed.

Lemma IsTemporary_MarkPermanent (e : errNode) :
  IsTemporary (MarkPermanent (Some e)) = IsTemporary (Some e).
Proof. reflexivity. Qed.

(** Wrappers that add neither a mark nor a new message keep an
    unclassified chain of the exchange error unclassified: no node
    above an [ExchangeError] leaf has the type list of a sentinel. *)
Lemma exchange_chain_unmarked code message retry (r : errNode) :
  mark_types (getMark r) =
    [typeName (withStack (leafError "")); typeName (leafError "")] ->
  Is (WithDetailf
        (WithDomain (WithStack (Some (ExchangeError code message retry)))
           DomainExchange)
        ("code=" +:+ code +:+ " retry=" +:+ btoa retry)) (Some r) = false.
Proof.
  intros Hr. cbn [WithStack WithDomain WithDetailf].
  repeat (rewrite Is_unfold; cbn [UnwrapOnce];
          rewrite equalMarks_types by (rewrite Hr; reflexivity);
          cbn [orb]).
  reflexivity.
Qed.

(** C4 (as amended): marking a non-nil error makes the matching query
    true and leaves the other query as it was before the mark, so the
    other query is false exactly when the error did not already carry
    (or equal) the other sentinel.  *)
Theorem mark_classification (e : errNode) :
  IsTemporary (MarkTemporary (Some e)) = true
  /\ IsPermanent (MarkTemporary (Some e)) = IsPermanent (Some e)
  /\ IsPermanent (MarkPermanent (Some e)) = true
  /\ IsTemporary (MarkPermanent (Some e)) = IsTemporary (Some e).
Proof.
  split; [apply IsTemporary_MarkTemporary|].
  split; [apply IsPermanent_MarkTemporary|].
  split; [apply IsPermanent_MarkPermanent|apply IsTemporary_MarkPermanent].
Qed.

(** C4 fails as stated: an error already marked permanent stays
    permanent under a temporary mark (and the other way round), and a
    nil error cannot be marked at all. *)
Lemma marks_are_not_exclusive :
  IsPermanent (MarkTemporary (MarkPermanent (New "disk full"))) = true
  /\ IsTemporary (MarkPermanent (MarkTemporary (New "disk full"))) = true
  /\ IsTemporary (MarkTemporary None) = false
  /\ IsPermanent (MarkPermanent None) = false.
Proof. repeat split; reflexivity. Qed.

(** C8: an exchange error is non-nil, classified by its retry flag
    alone and tagged with the exchange domain. *)
Theorem NewExchangeError_classified (code message : string) (retry : bool) :
  NewExchangeError code message retry <> None
  /\ IsTemporary (NewExchangeError code message retry) = retry
  /\ IsPermanent (NewExchangeError code message retry) = negb retry
  /\ GetDomain (NewExchangeError code message retry) = DomainExchange.
Proof.
  pose proof (exchange_chain_unmarked code message retry) as Hbase.
  assert (Ht := Hbase (withStack (leafError "temporary error")) eq_refl).
  assert (Hp := Hbase (withStack (leafError "permanent error")) eq_refl).
  clear Hbase. unfold IsTemporary, IsPermanent, ErrTemporary, ErrPermanent, New.
  unfold NewExchangeError.
  cbn [WithStack WithDomain WithDetailf] in *.
  destruct retry; cbn [negb].
  - split; [discriminate|]. split; [reflexivity|]. split; [|reflexivity].
    + cbn [MarkTemporary Mark ErrTemporary New WithHint WithTelemetry].
      do 2 (rewrite Is_unfold; cbn [UnwrapOnce];
            rewrite equalMarks_types by reflexivity; cbn [orb]).
      rewrite Is_unfold; cbn [UnwrapOnce getMark].
      replace (equalMarks _ _) with false by reflexivity.
      exact Hp.
  - split; [discriminate|]. split; [|split; reflexivity].
    + cbn [MarkPermanent Mark ErrPermanent New WithHint WithTelemetry].
      do 2 (rewrite Is_unfold; cbn [UnwrapOnce];
            rewrite equalMarks_types by reflexivity; cbn [orb]).
      rewrite Is_unfold; cbn [UnwrapOnce getMark].
      replace (equalMarks _ _) with false by reflexivity.
      exact Ht.
Qed.

(** C10: both wrapping helpers map nil to nil. *)
Theorem wrap_nil_is_nil (msg : string) (d : Domain) :
  WrapWithDomain None msg d = None /\ WrapWithStack None msg = None.
Proof. split; reflexivity. Qed.

(** On a non-nil error they add nodes and never return nil. *)
Lemma wrap_some_is_some (e : errNode) (msg : string) (d : Domain) :
  WrapWithDomain (Some e) msg d <> None /\ WrapWithStack (Some e) msg <> None.
Proof.
  unfold WrapWithDomain, WrapWithStack, Wrap.
  destruct (String.eqb msg ""); split; discriminate.
Qed.

(** *** Wrapping and classification *)

(** A node whose type list cannot be that of a sentinel adds nothing
    to a query for one. *)
Lemma Is_skip (e c r : errNode) :
  UnwrapOnce e = Some c ->
  equalTypes (mark_types (getMark e)) (mark_types (getMark r)) = false ->
  Is (Some e) (Some r) = Is (Some c) (Some r).
Proof.
  intros Hc Ht. rewrite Is_unfold, Hc, equalMarks_types by assumption. reflexivity.
Qed.

Lemma Is_sentinel_WithMessage_WithStack (e : errNode) (msg sentinel : string) :
  Is (Some (withStack (withPrefix e msg))) (New sentinel) = Is (Some e) (New sentinel).
Proof.
  unfold New.
  rewrite (Is_skip _ (withPrefix e msg)) by reflexivity.
  rewrite (Is_skip _ e) by reflexivity. reflexivity.
Qed.


Lemma Is_sentinel_Wrap (e : errNode) (msg sentinel : string) :
  msg <> "" -> Is (Wrap (Some e) msg) (New sentinel) = Is (Some e) (New sentinel).
Proof.
  intros Hmsg. unfold Wrap. destruct (String.eqb_spec msg ""); [contradiction|].
  apply Is_sentinel_WithMessage_WithStack.
Qed.

(** X1: wrapping a non-nil error with a non-empty message, with or
    without a domain, leaves both classification queries as they were. *)
Theorem wrap_keeps_classification (e : errNode) (msg : string) (d : Domain) :
  msg <> "" ->
  IsTemporary (WrapWithDomain (Some e) msg d) = IsTemporary (Some e)
  /\ IsPermanent (WrapWithDomain (Some e) msg d) = IsPermanent (Some e)
  /\ IsTemporary (WrapWithStack (Some e) msg) = IsTemporary (Some e)
  /\ IsPermanent (WrapWithStack (Some e) msg) = IsPermanent (Some e).
Proof.
  intros Hmsg. unfold IsTemporary, IsPermanent, ErrTemporary, ErrPermanent.
  pose proof (Is_sentinel_Wrap e msg "temporary error" Hmsg) as Ht.
  pose proof (Is_sentinel_Wrap e msg "permanent error" Hmsg) as Hp.
  unfold WrapWithDomain, WrapWithStack.
  unfold Wrap in *. destruct (String.eqb_spec msg ""); [contradiction|].
  cbn [WithMessage WithStack WithDomain] in *. unfold New in *.
  repeat split.
  - rewrite (Is_skip _ (withStack (withPrefix e msg))) by reflexivity. exact Ht.
  - rewrite (Is_skip _ (withStack (withPrefix e msg))) by reflexivity. exact Hp.
  - rewrite (Is_skip _ (withStack (withPrefix e msg))) by reflexivity. exact Ht.
  - rewrite (Is_skip _ (withStack (withPrefix e msg))) by reflexivity. exact Hp.
Qed.

Lemma wrap_keeps_classification_example :
  let err := NewExchangeError "RATE_LIMIT" "too many requests" true in
  IsTemporary (WrapWithDomain err "failed to update price" DomainUsecase) = true
  /\ IsPermanent (WrapWithDomain err "failed to update price" DomainUsecase) = false.
Proof.
  assert (H : exists e, NewExchangeError "RATE_LIMIT" "too many requests" true = Some e)
    by (eexists; reflexivity).
  destruct H as [e He]. cbv zeta. rewrite He.
  destruct (wrap_keeps_classification e "failed to update price" DomainUsecase)
    as (Ht & Hp & _); [discriminate|].
  rewrite Ht, Hp, <- He. split; reflexivity.
Defined.

(** With an empty message [Wrap] adds only a stack trace, and a bare
    leaf that spells a sentinel's message then looks like the sentinel. *)
Lemma empty_wrap_can_classify :
  IsTemporary (Some (leafError "temporary error")) = false
  /\ IsTemporary (WrapWithDomain (Some (leafError "temporary error")) "" DomainUsecase)
     = true.
Proof. split; reflexivity. Qed.



(** *** Exchange codes *)

Lemma asExchangeError_Wrap (e : errNode) (msg : string) :
  option_map asExchangeError (Wrap (Some e) msg) = Some (asExchangeError e).
Proof. unfold Wrap. destruct (String.eqb msg ""); reflexivity. Qed.

(** X3: the code of an exchange error is read back through every
    wrapper: [IsExchangeCode] compares the code given to
    [NewExchangeError], also after [WrapWithDomain] or
    [WrapWithStack]; an error made by [New] has no code, nor has nil. *)
Theorem IsExchangeCode_reads_code (code message : string) (retry : bool)
    (msg : string) (d : Domain) (c : string) :
  IsExchangeCode (NewExchangeError code message retry) c = String.eqb code c
  /\ IsExchangeCode (WrapWithDomain (NewExchangeError code message retry) msg d) c
     = String.eqb code c
  /\ IsExchangeCode (WrapWithStack (NewExchangeError code message retry) msg) c
     = String.eqb code c
  /\ IsExchangeCode (New message) c = false
  /\ IsExchangeCode None c = false.
Proof.
  assert (Hx : exists e, NewExchangeError code message retry = Some e
                         /\ asExchangeError e = Some (code, message, retry)).
  { destruct retry; eexists; split; reflexivity. }
  destruct Hx as (e & He & Has). rewrite He.
  pose proof (asExchangeError_Wrap e msg) as Hw.
  unfold WrapWithDomain, WrapWithStack, IsExchangeCode.
  destruct (Wrap (Some e) msg) as [w|]; [|discriminate].
  cbn [option_map] in Hw. injection Hw as Hw.
  cbn [WithDomain WithStack asExchangeError]. rewrite Hw, Has.
  repeat split.
Qed.

(** *** Errors without a mark *)

(** X4: classification compares message and type list, not identity:
    an unmarked error made by [New] is temporary exactly when its
    message is the temporary sentinel's message, and permanent exactly
    when it is the permanent sentinel's. *)
Theorem New_classified_by_message (msg : string) :
  IsTemporary (New msg) = String.eqb msg "temporary error"
  /\ IsPermanent (New msg) = String.eqb msg "permanent error".
Proof.
  unfold IsTemporary, IsPermanent, ErrTemporary, ErrPermanent, New, Is.
  cbn [chain existsb getMark Error map typeName].
  unfold equalMarks. cbn [mark_msg mark_types].
  split; destruct (String.eqb msg _); reflexivity.
Qed.

End domain_facts.

(** ** Properties of the retry driver *)

Module retry_facts.
Import crdberrors domain retry.
Import int64_facts.

(** *** Delay arithmetic *)

Lemma jitter_small d : 0 <= d <= 5 * Second -> jitter d = d + d / 5.
Proof.
  intros H. unfold jitter, int64.add, int64.div, Second in *.
  rewrite Z.quot_div_nonneg by lia.
  assert (0 <= d / 5 <= d).
  { split; [apply Z.div_pos; lia|]. apply Z.div_le_upper_bound; lia. }
  rewrite (wrap_id (d / 5)) by (unfold int64.in_range, int64.min_int, int64.max_int; lia).
  apply wrap_id. unfold int64.in_range, int64.min_int, int64.max_int. lia.
Qed.

Lemma nextDelay_small d : 0 <= d <= 5 * Second -> nextDelay d = Z.min (2 * d) (5 * Second).
Proof.
  intros H. unfold nextDelay, int64.mul, Second in *.
  rewrite wrap_id by (unfold int64.in_range, int64.min_int, int64.max_int; lia).
  destruct (Z.ltb_spec (5 * 1000000000) (d * 2)); lia.
Qed.

Lemma nextDelay_bounds d : 0 < d <= 5 * Second -> 0 < nextDelay d <= 5 * Second.
Proof. intros H. rewrite nextDelay_small by lia. lia. Qed.

Lemma jitter_lt d d' :
  0 <= d -> d < d' -> d' <= 5 * Second -> jitter d < jitter d'.
Proof.
  intros H0 Hlt Hle. rewrite !jitter_small by lia.
  assert (d / 5 <= d' / 5) by (apply Z.div_le_mono; lia). lia.
Qed.

Lemma jitter_le_capped d : 0 <= d <= 5 * Second -> jitter d <= cappedWait.
Proof.
  intros H. unfold cappedWait. rewrite !jitter_small by lia.
  assert (d / 5 <= 5 * Second / 5) by (apply Z.div_le_mono; lia). lia.
Qed.

(** The delay of round [i] (counted from 0) in closed form. *)
Lemma delay_closed_form d0 (i : nat) :
  0 < d0 <= 5 * Second ->
  Nat.iter i nextDelay d0 = Z.min (2 ^ Z.of_nat i * d0) (5 * Second).
Proof.
  intros H. induction i as [|i IH].
  - simpl Nat.iter. change (2 ^ Z.of_nat 0) with 1. unfold Second in *. lia.
  - simpl Nat.iter. rewrite IH.
    assert (0 < 2 ^ Z.of_nat i) by (apply Z.pow_pos_nonneg; lia).
    rewrite nextDelay_small by (unfold Second in *; nia).
    replace (2 ^ Z.of_nat (S i)) with (2 * 2 ^ Z.of_nat i)
      by (rewrite Nat2Z.inj_succ, Z.pow_succ_r; lia).
    unfold Second in *. lia.
Qed.

Lemma waits_from_iter d0 (m : nat) :
  waits_from d0 m = map (fun i => jitter (Nat.iter i nextDelay d0)) (seq 0 m).
Proof.
  revert d0. induction m as [|m IH]; intros d0; [reflexivity|].
  cbn [waits_from seq map]. f_equal.
  rewrite IH, <- seq_shift, map_map. apply map_ext. intros i.
  f_equal. clear. induction i as [|i IH]; [reflexivity|].
  simpl Nat.iter in *. now rewrite <- IH.
Qed.

Lemma waits_from_closed_form d0 (m : nat) :
  0 < d0 <= 5 * Second ->
  waits_from d0 m =
    map (fun i => let delay := Z.min (2 ^ Z.of_nat i * d0) (5 * Second) in
                  delay + delay / 5) (seq 0 m).
Proof.
  intros H. rewrite waits_from_iter. apply map_ext. intros i.
  rewrite delay_closed_form by assumption. cbv zeta.
  apply jitter_small. unfold Second in *.
  assert (0 < 2 ^ Z.of_nat i) by (apply Z.pow_pos_nonneg; lia). nia.
Qed.

Lemma waits_from_length d (m : nat) : length (waits_from d m) = m.
Proof. revert d. induction m as [|m IH]; intros d; cbn; [|rewrite IH]; reflexivity. Qed.

Lemma increasing_then_capped_cons w w' ws :
  increasing_then_capped (w :: w' :: ws) =
    ((w <? w') || ((w =? cappedWait) && (w' =? cappedWait)))
    && increasing_then_capped (w' :: ws).
Proof. reflexivity. Qed.

Lemma waits_from_increasing d (m : nat) :
  0 < d <= 5 * Second -> increasing_then_capped (waits_from d m) = true.
Proof.
  revert d. induction m as [|m IH]; intros d H; [reflexivity|].
  destruct m as [|m]; [reflexivity|].
  change (waits_from d (S (S m)))
    with (jitter d :: waits_from (nextDelay d) (S m)).
  pose proof (IH (nextDelay d) (nextDelay_bounds d H)) as IH'.
  change (waits_from (nextDelay d) (S m))
    with (jitter (nextDelay d) :: waits_from (nextDelay (nextDelay d)) m) in *.
  rewrite increasing_then_capped_cons, IH', andb_true_r.
  apply orb_true_iff.
  destruct (Z.eq_dec d (5 * Second)) as [->|Hne].
  - right. now vm_compute.
  - left. apply Z.ltb_lt. apply jitter_lt; [lia| |apply nextDelay_bounds; lia].
    rewrite nextDelay_small by lia. lia.
Qed.

Lemma waits_from_capped d (m : nat) :
  0 < d <= 5 * Second -> Forall (fun w => w <= cappedWait) (waits_from d m).
Proof.
  revert d. induction m as [|m IH]; intros d H; [constructor|].
  cbn [waits_from]. constructor.
  - apply jitter_le_capped. lia.
  - apply IH, nextDelay_bounds, H.
Qed.

(** *** The closure *)

Section Loop.
Context {St : Type}.
Variable op : Operation St.
Variable maxRetries : Z.

(** The context RetryWithBackoff runs under. *)
Local Abbreviation ctx := (WithCancel Background).

Lemma op_state_shift s (k : nat) :
  op_state op ctx (op ctx s).2 k = op_state op ctx s (S k).
Proof.
  induction k as [|k IH]; [reflexivity|].
  cbn [op_state] in *. now rewrite IH.
Qed.

Lemma op_result_shift s (k : nat) :
  op_result op ctx (op ctx s).2 k = op_result op ctx s (S k).
Proof. unfold op_result. now rewrite op_state_shift. Qed.

Lemma IsTemporary_some (err : error) : IsTemporary err = true -> err <> None.
Proof. now destruct err. Qed.

(** *** Unfolding one iteration *)

Lemma loop_exit fuel attempt delay lastErr s :
  maxRetries < attempt ->
  retry_loop op maxRetries ctx fuel attempt delay lastErr s =
    Some (mkResult
            (Wrapf lastErr
               ("operation failed after " +:+ itoa maxRetries +:+ " attempts"))
            s []).
Proof.
  intros H. destruct fuel; cbn [retry_loop];
    (destruct (Z.leb_spec attempt maxRetries); [lia|reflexivity]).
Qed.

Lemma loop_success fuel attempt delay lastErr s :
  attempt <= maxRetries ->
  op_result op ctx s 0 = None ->
  exists r,
    retry_loop op maxRetries ctx (S fuel) attempt delay lastErr s = Some r
    /\ ret r = None /\ final r = op_state op ctx s 1
    /\ invocations (trace r) = 1%nat /\ waits (trace r) = []
    /\ cancelled (trace r) = false.
Proof.
  intros Hle Hres. unfold op_result in Hres. cbn [op_state] in *.
  cbn [retry_loop]. destruct (Z.leb_spec attempt maxRetries); [|lia].
  destruct (op ctx s) as [err s1]. cbn [fst snd] in *. subst err.
  eexists. split; [reflexivity|]. cbn [ret final trace].
  destruct (1 <? attempt); repeat split; reflexivity.
Qed.

Lemma loop_permanent fuel attempt delay lastErr s :
  attempt <= maxRetries ->
  op_result op ctx s 0 <> None ->
  IsTemporary (op_result op ctx s 0) = false ->
  exists r,
    retry_loop op maxRetries ctx (S fuel) attempt delay lastErr s = Some r
    /\ ret r = op_result op ctx s 0 /\ final r = op_state op ctx s 1
    /\ invocations (trace r) = 1%nat /\ waits (trace r) = []
    /\ cancelled (trace r) = false.
Proof.
  intros Hle Hsome Hperm. unfold op_result in *. cbn [op_state] in *.
  cbn [retry_loop]. destruct (Z.leb_spec attempt maxRetries); [|lia].
  destruct (op ctx s) as [err s1]. cbn [fst snd] in *.
  destruct err as [e|]; [|congruence]. rewrite Hperm. cbn [negb].
  eexists. split; [reflexivity|]. repeat split; reflexivity.
Qed.

(** A temporary failure with attempts left: warn, wait, next round. *)
Lemma loop_retry fuel attempt delay lastErr s :
  attempt < maxRetries ->
  IsTemporary (op_result op ctx s 0) = true ->
  exists warn,
    retry_loop op maxRetries ctx (S fuel) attempt delay lastErr s =
      after [Invoke attempt;
             LogWarnErr "Operation failed with temporary error, retrying"
               (op_result op ctx s 0) warn;
             Wait (jitter delay)]
        (retry_loop op maxRetries ctx fuel (int64.add attempt 1) (nextDelay delay)
           (op_result op ctx s 0) (op_state op ctx s 1)).
Proof.
  intros Hlt Htemp. pose proof (IsTemporary_some _ Htemp) as Hsome.
  unfold op_result in *. cbn [op_state] in *.
  cbn [retry_loop]. destruct (Z.leb_spec attempt maxRetries); [|lia].
  destruct (op ctx s) as [err s1]. cbn [fst snd] in *.
  destruct err as [e|]; [|congruence]. rewrite Htemp. cbn [negb].
  destruct (Z.ltb_spec attempt maxRetries); [|lia].
  cbn [WithCancel Background done]. eexists. reflexivity.
Qed.

(** A temporary failure on the last attempt: log, leave the loop. *)
Lemma loop_last fuel delay lastErr s :
  IsTemporary (op_result op ctx s 0) = true ->
  exists kv,
    retry_loop op maxRetries ctx (S fuel) maxRetries delay lastErr s =
      after [Invoke maxRetries;
             LogErrorErr "Operation failed after max retries"
               (op_result op ctx s 0) kv]
        (retry_loop op maxRetries ctx fuel (int64.add maxRetries 1) delay
           (op_result op ctx s 0) (op_state op ctx s 1)).
Proof.
  intros Htemp. pose proof (IsTemporary_some _ Htemp) as Hsome.
  unfold op_result in *. cbn [op_state] in *.
  cbn [retry_loop]. destruct (Z.leb_spec maxRetries maxRetries); [|lia].
  destruct (op ctx s) as [err s1]. cbn [fst snd] in *.
  destruct err as [e|]; [|congruence]. rewrite Htemp. cbn [negb].
  destruct (Z.ltb_spec maxRetries maxRetries); [lia|].
  eexists. reflexivity.
Qed.

Lemma add_one attempt :
  attempt < int64.max_int -> 1 <= attempt -> int64.add attempt 1 = attempt + 1.
Proof.
  intros H1 H2. apply wrap_id.
  unfold int64.in_range, int64.min_int, int64.max_int in *. lia.
Qed.

(** *** Whole runs, from any loop head *)

(** [m] temporary failures followed by a success. *)
Lemma loop_recovers (m : nat) :
  forall fuel attempt delay lastErr s,
    (m < fuel)%nat ->
    1 <= attempt ->
    attempt + Z.of_nat m <= maxRetries ->
    maxRetries <= int64.max_int ->
    (forall k, (k < m)%nat -> IsTemporary (op_result op ctx s k) = true) ->
    op_result op ctx s m = None ->
    exists r,
      retry_loop op maxRetries ctx fuel attempt delay lastErr s = Some r
      /\ ret r = None /\ final r = op_state op ctx s (S m)
      /\ invocations (trace r) = S m
      /\ waits (trace r) = waits_from delay m
      /\ cancelled (trace r) = false.
Proof.
  induction m as [|m IH]; intros fuel attempt delay lastErr s Hfuel H1 Hle Hmax Htemp Hok.
  - destruct fuel as [|fuel]; [lia|].
    apply loop_success; [lia|assumption].
  - destruct fuel as [|fuel]; [lia|].
    assert (Ht0 : IsTemporary (op_result op ctx s 0) = true) by (apply Htemp; lia).
    destruct (loop_retry fuel attempt delay lastErr s) as [warn Heq];
      [lia|assumption|].
    rewrite Heq, add_one by lia. clear Heq.
    destruct (IH fuel (attempt + 1) (nextDelay delay) (op_result op ctx s 0)
                (op_state op ctx s 1)) as (r & Hr & Hret & Hfin & Hinv & Hw & Hc).
    + lia.
    + lia.
    + lia.
    + assumption.
    + intros k Hk. cbn [op_state]. rewrite op_result_shift. apply Htemp. lia.
    + cbn [op_state]. rewrite op_result_shift. assumption.
    + rewrite Hr. eexists. split; [reflexivity|].
      cbn [ret final trace app invocations waits cancelled waits_from].
      rewrite Hret, Hfin, Hinv, Hw, Hc.
      cbn [op_state]. rewrite op_state_shift. repeat split; reflexivity.
Qed.

(** [m] temporary failures that use up the attempts. *)
Lemma loop_exhausts (m : nat) :
  forall fuel attempt delay lastErr s,
    (m <= fuel)%nat ->
    1 <= attempt ->
    attempt + Z.of_nat m = maxRetries + 1 ->
    maxRetries < int64.max_int ->
    (forall k, (k < m)%nat -> IsTemporary (op_result op ctx s k) = true) ->
    exists r,
      retry_loop op maxRetries ctx fuel attempt delay lastErr s = Some r
      /\ ret r =
           Wrapf (match m with O => lastErr | S m' => op_result op ctx s m' end)
             ("operation failed after " +:+ itoa maxRetries +:+ " attempts")
      /\ final r = op_state op ctx s m
      /\ invocations (trace r) = m
      /\ waits (trace r) = waits_from delay (Nat.pred m)
      /\ cancelled (trace r) = false.
Proof.
  induction m as [|m IH]; intros fuel attempt delay lastErr s Hfuel H1 Hle Hmax Htemp.
  - rewrite loop_exit by lia. eexists. split; [reflexivity|].
    repeat split; reflexivity.
  - destruct fuel as [|fuel]; [lia|].
    assert (Ht0 : IsTemporary (op_result op ctx s 0) = true) by (apply Htemp; lia).
    assert (Hshift : forall k, (k < m)%nat ->
              IsTemporary (op_result op ctx (op_state op ctx s 1) k) = true).
    { intros k Hk. cbn [op_state]. rewrite op_result_shift. apply Htemp. lia. }
    assert (Hlast : match m with
                    | O => op_result op ctx s 0
                    | S m' => op_result op ctx (op_state op ctx s 1) m'
                    end = op_result op ctx s m).
    { destruct m; [reflexivity|]. cbn [op_state]. apply op_result_shift. }
    destruct m as [|m'].
    + assert (attempt = maxRetries) as -> by lia.
      destruct (loop_last fuel delay lastErr s Ht0) as [kv Heq].
      rewrite Heq, add_one by lia. clear Heq.
      rewrite loop_exit by lia. eexists. split; [reflexivity|].
      repeat split; reflexivity.
    + destruct (loop_retry fuel attempt delay lastErr s) as [warn Heq];
        [lia|assumption|].
      rewrite Heq, add_one by lia. clear Heq.
      destruct (IH fuel (attempt + 1) (nextDelay delay) (op_result op ctx s 0)
                  (op_state op ctx s 1)) as (r & Hr & Hret & Hfin & Hinv & Hw & Hc);
        [lia|lia|lia|assumption|assumption|].
      rewrite Hr. eexists. split; [reflexivity|].
      cbn [ret final trace app invocations waits cancelled].
      rewrite Hret, Hfin, Hinv, Hw, Hc, Hlast.
      cbn [op_state Nat.pred waits_from]. rewrite !op_state_shift.
      repeat split; reflexivity.
Qed.

(** No run of the loop under a context that is not done takes the
    [ctx.Done()] branch of the [select]. *)
Lemma loop_not_cancelled fuel :
  forall attempt delay lastErr s r,
    retry_loop op maxRetries ctx fuel attempt delay lastErr s = Some r ->
    cancelled (trace r) = false.
Proof.
  induction fuel as [|fuel IH]; intros attempt delay lastErr s r.
  - cbn [retry_loop]. destruct (attempt <=? maxRetries); [discriminate|].
    intros [= <-]. reflexivity.
  - cbn [retry_loop]. destruct (attempt <=? maxRetries).
    2: { intros [= <-]. reflexivity. }
    destruct (op ctx s) as [err s1]. destruct err as [e|].
    2: { intros [= <-]. cbn [trace]. destruct (1 <? attempt); reflexivity. }
    destruct (negb (IsTemporary (Some e))).
    { intros [= <-]. reflexivity. }
    cbn [WithCancel Background done].
    destruct (attempt <? maxRetries).
    + destruct (retry_loop op maxRetries ctx fuel _ _ _ _) as [r'|] eqn:Hrec;
        [|discriminate].
      intros [= <-]. cbn [trace app cancelled]. eapply IH, Hrec.
    + destruct (retry_loop op maxRetries ctx fuel _ _ _ _) as [r'|] eqn:Hrec;
        [|discriminate].
      intros [= <-]. cbn [trace app cancelled]. eapply IH, Hrec.
Qed.

End Loop.

(** Under a context that is already done the [select] takes the
    [ctx.Done()] branch at the first backoff and no further attempt
    is made. *)
Lemma loop_done_context {St} (op : Operation St) maxRetries fuel attempt delay lastErr s :
  attempt < maxRetries ->
  IsTemporary (op (mkContext true) s).1 = true ->
  exists r,
    retry_loop op maxRetries (mkContext true) (S fuel) attempt delay lastErr s = Some r
    /\ ret r = Canceled /\ invocations (trace r) = 1%nat
    /\ waits (trace r) = [] /\ cancelled (trace r) = true.
Proof.
  intros Hlt Htemp. cbn [retry_loop].
  destruct (Z.leb_spec attempt maxRetries); [|lia].
  destruct (op (mkContext true) s) as [err s1]. cbn [fst] in Htemp.
  destruct err as [e|]; [|discriminate]. rewrite Htemp. cbn [negb].
  destruct (Z.ltb_spec attempt maxRetries); [|lia].
  cbn [done]. eexists. split; [reflexivity|]. repeat split; reflexivity.
Qed.

(** *** Runs of RetryWithBackoff *)

Local Abbreviation ctx := (WithCancel Background).

(** C1: when the first invocation fails with an error that is not
    temporary (marked permanent or not marked at all), the driver
    invokes the operation once, waits for nothing and returns exactly
    that error, whatever [maxRetries >= 1] is. *)
Theorem permanent_failure_aborts {St : Type} (op : Operation St)
    (maxRetries initialDelay : Z) (s : St) (fuel : nat) :
  1 <= maxRetries ->
  op_result op ctx s 0 <> None ->
  IsTemporary (op_result op ctx s 0) = false ->
  exists r,
    RetryWithBackoff (S fuel) op maxRetries initialDelay s = Some r
    /\ ret r = op_result op ctx s 0
    /\ final r = op_state op ctx s 1
    /\ invocations (trace r) = 1%nat
    /\ waits (trace r) = []
    /\ cancelled (trace r) = false.
Proof.
  intros Hmax Hsome Hperm. unfold RetryWithBackoff.
  apply loop_permanent; [lia|assumption|assumption].
Qed.

Lemma permanent_failure_aborts_example :
  exists r,
    RetryWithBackoff 1 UpdatePrice 5 (500 * Millisecond) 3 = Some r
    /\ ret r = op_result UpdatePrice ctx 3 0
    /\ final r = 4
    /\ invocations (trace r) = 1%nat
    /\ waits (trace r) = []
    /\ cancelled (trace r) = false.
Proof.
  apply (permanent_failure_aborts UpdatePrice 5 (500 * Millisecond) 3 0).
  - lia.
  - discriminate.
  - reflexivity.
Defined.

(** C2 (as amended): for an initial delay between one nanosecond and
    the five-second ceiling, [N - 1] temporary failures followed by a
    success give [N] invocations and [N - 1] waits; round [i] waits
    its delay plus a fifth of it, the delay doubling from round to
    round up to the ceiling, so the waits grow strictly until they
    reach the six-second wait of the ceiling and stay there. *)
Theorem backoff_schedule {St : Type} (op : Operation St)
    (maxRetries initialDelay : Z) (s : St) (fuel N : nat) :
  (1 <= N)%nat ->
  Z.of_nat N <= maxRetries ->
  maxRetries <= int64.max_int ->
  0 < initialDelay <= 5 * Second ->
  (N <= fuel)%nat ->
  (forall k, (k < N - 1)%nat -> IsTemporary (op_result op ctx s k) = true) ->
  op_result op ctx s (N - 1) = None ->
  exists r,
    RetryWithBackoff fuel op maxRetries initialDelay s = Some r
    /\ ret r = None
    /\ invocations (trace r) = N
    /\ length (waits (trace r)) = (N - 1)%nat
    /\ waits (trace r) =
         map (fun i => let delay := Z.min (2 ^ Z.of_nat i * initialDelay) (5 * Second) in
                       delay + delay / 5) (seq 0 (N - 1))
    /\ increasing_then_capped (waits (trace r)) = true
    /\ Forall (fun w => w <= cappedWait) (waits (trace r)).
Proof.
  intros HN Hle Hmax Hd Hfuel Htemp Hok. unfold RetryWithBackoff.
  destruct N as [|m]; [lia|].
  replace (S m - 1)%nat with m in * by lia.
  destruct (loop_recovers op maxRetries m fuel 1 initialDelay None s)
    as (r & Hr & Hret & _ & Hinv & Hw & _);
    [lia|lia|lia|assumption|assumption|assumption|].
  exists r. split; [assumption|]. split; [assumption|]. split; [assumption|].
  rewrite Hw. split; [apply waits_from_length|].
  split; [apply waits_from_closed_form; assumption|].
  split; [apply waits_from_increasing; assumption|].
  apply waits_from_capped; assumption.
Qed.

Lemma backoff_schedule_100ms :
  exists r,
    RetryWithBackoff 3 (failing_until 3) 3 (100 * Millisecond) 0 = Some r
    /\ ret r = None
    /\ invocations (trace r) = 3%nat
    /\ waits (trace r) = [120 * Millisecond; 240 * Millisecond].
Proof.
  destruct (backoff_schedule (failing_until 3) 3 (100 * Millisecond) 0 3 3)
    as (r & Hr & Hret & Hinv & _ & Hw & _).
  - lia.
  - lia.
  - unfold int64.max_int. lia.
  - unfold Millisecond, Second. lia.
  - lia.
  - intros k Hk. destruct k as [|[|k]]; [reflexivity|reflexivity|lia].
  - reflexivity.
  - exists r. split; [exact Hr|]. split; [exact Hret|]. split; [exact Hinv|].
    exact Hw.
Defined.

(** C2 fails as stated: with a zero initial delay every wait is zero,
    neither growing nor at the ceiling. *)
Lemma zero_delay_waits_do_not_grow :
  exists r,
    RetryWithBackoff 3 (failing_until 3) 3 0 0 = Some r
    /\ ret r = None
    /\ invocations (trace r) = 3%nat
    /\ waits (trace r) = [0; 0]
    /\ increasing_then_capped (waits (trace r)) = false.
Proof. eexists. split; [vm_compute; reflexivity|]. repeat split; reflexivity. Qed.

(** C3 (as amended): below the largest [int], an operation that fails
    temporarily on every attempt is invoked [maxRetries] times; the
    driver then returns the last error under a stack trace and the
    prefix that spells out [maxRetries]. *)
Theorem temporary_failures_exhaust {St : Type} (op : Operation St)
    (maxRetries initialDelay : Z) (s : St) (fuel : nat) :
  1 <= maxRetries < int64.max_int ->
  (Z.to_nat maxRetries <= fuel)%nat ->
  (forall k, (k < Z.to_nat maxRetries)%nat ->
             IsTemporary (op_result op ctx s k) = true) ->
  exists r last,
    RetryWithBackoff fuel op maxRetries initialDelay s = Some r
    /\ op_result op ctx s (Z.to_nat maxRetries - 1) = Some last
    /\ ret r =
         Some (withStack
                 (withPrefix last
                    ("operation failed after " +:+ itoa maxRetries +:+ " attempts")))
    /\ option_map Error (ret r) =
         Some ("operation failed after " +:+ itoa maxRetries +:+ " attempts: "
               +:+ Error last)
    /\ invocations (trace r) = Z.to_nat maxRetries
    /\ final r = op_state op ctx s (Z.to_nat maxRetries)
    /\ cancelled (trace r) = false.
Proof.
  intros Hmax Hfuel Htemp. unfold RetryWithBackoff.
  destruct (Z.to_nat maxRetries) as [|m] eqn:Hm; [lia|].
  destruct (loop_exhausts op maxRetries (S m) fuel 1 initialDelay None s)
    as (r & Hr & Hret & Hfin & Hinv & _ & Hc);
    [lia|lia|lia|lia|assumption|].
  replace (S m - 1)%nat with m by lia.
  assert (Hlast : op_result op ctx s m <> None)
    by (apply IsTemporary_some, Htemp; lia).
  destruct (op_result op ctx s m) as [last|] eqn:Hl; [|congruence].
  exists r, last. split; [assumption|]. split; [reflexivity|].
  rewrite Hret. cbn [Wrapf WithStack WithMessage option_map].
  split; [reflexivity|].
  split; [cbn [Error String.eqb append]; now rewrite !append_assoc|].
  repeat split; assumption.
Qed.

Lemma temporary_failures_exhaust_example :
  exists r last,
    RetryWithBackoff 3 always_failing 3 (2 * Second) tt = Some r
    /\ op_result always_failing ctx tt 2 = Some last
    /\ ret r =
         Some (withStack (withPrefix last "operation failed after 3 attempts"))
    /\ option_map Error (ret r) =
         Some ("operation failed after 3 attempts: " +:+ Error last)
    /\ invocations (trace r) = 3%nat
    /\ final r = tt
    /\ cancelled (trace r) = false.
Proof.
  apply (temporary_failures_exhaust always_failing 3 (2 * Second) tt 3).
  - unfold int64.max_int. lia.
  - apply Nat.le_refl.
  - intros k Hk. reflexivity.
Defined.

(** With the largest [int] as bound the loop condition cannot fail:
    past [attempt = maxRetries] the counter wraps to the smallest int. *)
Lemma loop_never_exits fuel :
  forall attempt delay lastErr s,
    int64.in_range attempt ->
    retry_loop always_failing int64.max_int ctx fuel attempt delay lastErr s = None.
Proof.
  induction fuel as [|fuel IH]; intros attempt delay lastErr s Hr;
    cbn [retry_loop];
    (destruct (Z.leb_spec attempt int64.max_int);
     [|unfold int64.in_range in Hr; lia]); [reflexivity|].
  cbn [always_failing]. change (IsTemporary _) with true. cbn [negb].
  cbn [WithCancel Background done].
  destruct (attempt <? int64.max_int);
    rewrite IH by apply wrap_in_range; reflexivity.
Qed.

(** C3 fails as stated: with [maxRetries] the largest [int] the
    driver never returns. *)
Lemma largest_bound_never_returns :
  ~ exists fuel r, RetryWithBackoff fuel always_failing int64.max_int 0 tt = Some r.
Proof.
  intros (fuel & r & H). unfold RetryWithBackoff in H.
  rewrite loop_never_exits in H; [discriminate|].
  unfold int64.in_range, int64.min_int, int64.max_int. lia.
Qed.

(** C5: with [maxRetries <= 0] the loop body does not run: the
    operation is not invoked, nothing is logged or waited for, and
    the driver returns nil. *)
Theorem no_attempts_returns_nil {St : Type} (op : Operation St)
    (maxRetries initialDelay : Z) (s : St) (fuel : nat) :
  maxRetries <= 0 ->
  RetryWithBackoff fuel op maxRetries initialDelay s = Some (mkResult None s []).
Proof.
  intros H. unfold RetryWithBackoff. rewrite loop_exit by lia. reflexivity.
Qed.

Lemma no_attempts_returns_nil_example :
  RetryWithBackoff 0 UpdatePrice 0 (500 * Millisecond) 0 = Some (mkResult None 0 []).
Proof. apply (no_attempts_returns_nil UpdatePrice 0 (500 * Millisecond) 0 0). lia. Defined.

(** C6 (as amended): the driver takes no cancellation signal.  Its
    context comes from the background context and is cancelled only
    by the deferred call on return, so in every run each backoff wait
    runs to its end and the [ctx.Done()] branch is never taken. *)
Theorem backoff_wait_not_cancelled {St : Type} (op : Operation St)
    (maxRetries initialDelay : Z) (s : St) (fuel : nat) (r : Result St) :
  RetryWithBackoff fuel op maxRetries initialDelay s = Some r ->
  cancelled (trace r) = false.
Proof. unfold RetryWithBackoff. apply loop_not_cancelled. Qed.

Lemma backoff_wait_not_cancelled_example :
  cancelled
    (trace (mkResult (St := Z) None 2
              [Invoke 1;
               LogWarnErr "Operation failed with temporary error, retrying"
                 (MarkTemporary (New "connection refused"))
                 [logx.VString "attempt"; logx.VInt 1;
                  logx.VString "max_retries"; logx.VInt 2;
                  logx.VString "retry_delay"; logx.VDuration 1000000000];
               Wait 1200000000;
               Invoke 2;
               LogInfo "Operation succeeded after retry"
                 [logx.VString "attempt"; logx.VInt 2;
                  logx.VString "max_retries"; logx.VInt 2]])) = false.
Proof.
  apply (backoff_wait_not_cancelled (failing_until 2) 2 Second 0 2).
  vm_compute. reflexivity.
Defined.

(** C6 fails as stated: no operation, bound, delay or closure state
    makes the driver leave a backoff wait through the cancellation
    branch. *)
Lemma no_cancellation_from_outside :
  ~ exists (op : Operation Z) maxRetries initialDelay s fuel r,
      RetryWithBackoff fuel op maxRetries initialDelay s = Some r
      /\ cancelled (trace r) = true.
Proof.
  intros (op & maxRetries & d0 & s & fuel & r & Hrun & Hc).
  unfold RetryWithBackoff in Hrun.
  apply loop_not_cancelled in Hrun. congruence.
Qed.

(** *** Every run of the loop *)

Section Runs.
Context {St : Type}.
Variable op : Operation St.
Variable maxRetries : Z.


(** Within the bound the loop needs one unit of fuel per attempt left. *)
Lemma loop_returns (fuel : nat) :
  forall attempt delay lastErr s,
    1 <= attempt -> maxRetries < int64.max_int ->
    (Z.to_nat (maxRetries - attempt + 1) <= fuel)%nat ->
    exists r, retry_loop op maxRetries ctx fuel attempt delay lastErr s = Some r.
Proof.
  induction fuel as [|fuel IH]; intros attempt delay lastErr s H1 Hmax Hfuel.
  { rewrite loop_exit by lia. eexists. reflexivity. }
  destruct (Z.le_gt_cases attempt maxRetries) as [Hle|Hgt];
    [|rewrite loop_exit by lia; eexists; reflexivity].
  cbn [retry_loop]. destruct (Z.leb_spec attempt maxRetries); [|lia].
  destruct (op ctx s) as [[e|] s1]; [|eexists; reflexivity].
  destruct (negb (IsTemporary (Some e))); [eexists; reflexivity|].
  cbn [WithCancel Background done]. rewrite add_one by lia.
  destruct (attempt <? maxRetries).
  - destruct (IH (attempt + 1) (nextDelay delay) (Some e) s1) as [r Hr];
      [lia|lia|lia|]. rewrite Hr. eexists. reflexivity.
  - destruct (IH (attempt + 1) delay (Some e) s1) as [r Hr];
      [lia|lia|lia|]. rewrite Hr. eexists. reflexivity.
Qed.

(** More fuel than a run needs does not change it. *)
Lemma loop_fuel_mono (fuel : nat) :
  forall fuel' attempt delay lastErr s r,
    (fuel <= fuel')%nat ->
    retry_loop op maxRetries ctx fuel attempt delay lastErr s = Some r ->
    retry_loop op maxRetries ctx fuel' attempt delay lastErr s = Some r.
Proof.
  induction fuel as [|fuel IH]; intros fuel' attempt delay lastErr s r Hle Hrun.
  - cbn [retry_loop] in Hrun. destruct (Z.leb_spec attempt maxRetries);
      [discriminate|]. rewrite loop_exit by lia. rewrite <- Hrun. reflexivity.
  - destruct fuel' as [|fuel']; [lia|]. cbn [retry_loop] in *.
    destruct (attempt <=? maxRetries); [|assumption].
    destruct (op ctx s) as [[e|] s1]; [|assumption].
    destruct (negb (IsTemporary (Some e))); [assumption|].
    cbn [WithCancel Background done] in *.
    destruct (attempt <? maxRetries).
    + destruct (retry_loop op maxRetries ctx fuel _ _ _ _) as [r'|] eqn:Hrec;
        [|discriminate].
      rewrite (IH fuel' _ _ _ _ r') by (assumption || lia). assumption.
    + destruct (retry_loop op maxRetries ctx fuel _ _ _ _) as [r'|] eqn:Hrec;
        [|discriminate].
      rewrite (IH fuel' _ _ _ _ r') by (assumption || lia). assumption.
Qed.

End Runs.

(** *** Delays that start at or under the ceiling *)




(** *** Every run of RetryWithBackoff *)

(** X5: below the largest [int] the driver returns for every
    operation, bound, delay and closure state, after at most
    [maxRetries] loop iterations; the result is the same for every
    larger iteration budget. *)
Theorem RetryWithBackoff_terminates {St : Type} (op : Operation St)
    (maxRetries initialDelay : Z) (s : St) :
  maxRetries < int64.max_int ->
  exists r, forall fuel,
    (Z.to_nat maxRetries <= fuel)%nat ->
    RetryWithBackoff fuel op maxRetries initialDelay s = Some r.
Proof.
  intros Hmax. unfold RetryWithBackoff.
  destruct (loop_returns op maxRetries (Z.to_nat maxRetries) 1 initialDelay None s)
    as [r Hr]; [lia|assumption|lia|].
  exists r. intros fuel Hfuel.
  apply (loop_fuel_mono op maxRetries (Z.to_nat maxRetries)); assumption.
Qed.

Lemma RetryWithBackoff_terminates_example :
  exists r, forall fuel,
    (5 <= fuel)%nat ->
    RetryWithBackoff fuel UpdatePrice 5 (500 * Millisecond) 0 = Some r.
Proof.
  apply (RetryWithBackoff_terminates UpdatePrice 5 (500 * Millisecond) 0).
  unfold int64.max_int. lia.
Defined.











(** *** The price update of the example *)


Lemma UpdatePrice_result (c : Context) (failureCount : Z) :
  let count := int64.add failureCount 1 in
  (UpdatePrice c failureCount).2 = count
  /\ (UpdatePrice c failureCount).1 <> None
  /\ GetDomain (UpdatePrice c failureCount).1 = DomainUsecase
  /\ IsTemporary (UpdatePrice c failureCount).1
     = (count =? 1) || (count =? 2) || (count =? 3)
  /\ IsPermanent (UpdatePrice c failureCount).1
     = negb ((count =? 1) || (count =? 2) || (count =? 3)).
Proof.
  intros count. unfold UpdatePrice, FetchPrice. fold count.
  destruct (count =? 1); [repeat split; discriminate|].
  destruct (count =? 2); [repeat split; discriminate|].
  destruct (count =? 3); repeat split; discriminate.
Qed.

(** X11: [UpdatePrice] never returns nil: on the third call of the
    exchange client the fetch succeeds but the save fails.  Its error
    always carries the usecase domain; it is temporary on calls one to
    three of the client and permanent on every other call. *)
Theorem UpdatePrice_never_succeeds (c : Context) (failureCount : Z) :
  (UpdatePrice c failureCount).2 = int64.add failureCount 1
  /\ (UpdatePrice c failureCount).1 <> None
  /\ GetDomain (UpdatePrice c failureCount).1 = DomainUsecase
  /\ IsTemporary (UpdatePrice c failureCount).1
     = (int64.add failureCount 1 =? 1) || (int64.add failureCount 1 =? 2)
       || (int64.add failureCount 1 =? 3)
  /\ IsPermanent (UpdatePrice c failureCount).1
     = negb (IsTemporary (UpdatePrice c failureCount).1).
Proof.
  destruct (UpdatePrice_result c failureCount) as (Hs & Hn & Hd & Ht & Hp).
  rewrite Hp, Ht. repeat split; assumption.
Qed.



End retry_facts.

(** ** Properties of the logging facade *)

Module logx_facts.
Import logx.

Section Pairs.
Variable Sprint : any -> string.

Local Abbreviation keyText := (logx.keyText Sprint).
Local Abbreviation pairAttrs := (logx.pairAttrs Sprint).
Local Abbreviation attrs_loop := (logx.attrs_loop Sprint).
Local Abbreviation argsToAttrs := (logx.argsToAttrs Sprint).

(** Induction over argument lists two elements at a time. *)
Lemma pair_ind (P : list any -> Prop) :
  P [] -> (forall a, P [a]) -> (forall a b l, P l -> P (a :: b :: l)) ->
  forall l, P l.
Proof.
  intros H0 H1 H2. fix IH 1. intros [|a [|b l]]; [exact H0|apply H1|].
  apply H2, IH.
Qed.

Lemma half_SS (n : nat) : (S (S n) / 2 = S (n / 2))%nat.
Proof.
  replace (S (S n)) with (n + 1 * 2)%nat by lia.
  rewrite Nat.div_add by lia. lia.
Qed.

Lemma parity_SS (n : nat) : (S (S n) mod 2 = n mod 2)%nat.
Proof.
  replace (S (S n)) with (n + 1 * 2)%nat by lia.
  now rewrite Nat.Div0.mod_add.
Qed.

Lemma pairAttrs_short (l : list any) : (length l <= 1)%nat -> pairAttrs l = [].
Proof. destruct l as [|a [|b l]]; cbn; [reflexivity|reflexivity|lia]. Qed.

Lemma pairAttrs_length (kv : list any) :
  length (pairAttrs kv) = (length kv / 2)%nat.
Proof.
  induction kv as [|a|a b l IH] using pair_ind; [reflexivity|reflexivity|].
  cbn [logx.pairAttrs length]. now rewrite half_SS, IH.
Qed.

(** A trailing argument without a partner does not count. *)
Lemma pairAttrs_drop_last (kv : list any) :
  (length kv mod 2 <> 0)%nat ->
  pairAttrs (take (length kv - 1) kv) = pairAttrs kv.
Proof.
  induction kv as [|a|a b l IH] using pair_ind; intros Hodd.
  - reflexivity.
  - reflexivity.
  - cbn [length] in *. rewrite parity_SS in Hodd.
    destruct l as [|c l]; [cbn in Hodd; lia|].
    replace (S (S (length (c :: l))) - 1)%nat with (S (S (length (c :: l) - 1)))
      by (cbn [length]; lia).
    cbn [take logx.pairAttrs]. f_equal. apply IH, Hodd.
Qed.

Lemma unpair_cons (k v : any) (ps : list (any * any)) :
  unpair ((k, v) :: ps) = k :: v :: unpair ps.
Proof. reflexivity. Qed.

Lemma pairAttrs_unpair (ps : list (any * any)) :
  pairAttrs (unpair ps) = map (fun p => slog_Any (keyText p.1) p.2) ps.
Proof.
  induction ps as [|[k v] ps IH]; [reflexivity|].
  rewrite unpair_cons. cbn [logx.pairAttrs map fst snd]. now rewrite IH.
Qed.

Lemma pairAttrs_unpair_extra (ps : list (any * any)) (x : any) :
  pairAttrs (unpair ps ++ [x]) = pairAttrs (unpair ps).
Proof.
  induction ps as [|[k v] ps IH]; [reflexivity|].
  rewrite unpair_cons. cbn [app logx.pairAttrs]. now rewrite IH.
Qed.

(** The index loop collects the pairs of the rest of the slice. *)
Lemma attrs_loop_pairs (fuel : nat) :
  forall (i : nat) (kv : list any) (attrs : list Attr),
    (length kv - i <= 2 * fuel + 1)%nat ->
    attrs_loop fuel i kv attrs = attrs ++ pairAttrs (drop i kv).
Proof.
  induction fuel as [|fuel IH]; intros i kv attrs Hfuel.
  - cbn [logx.attrs_loop]. rewrite pairAttrs_short, app_nil_r; [reflexivity|].
    rewrite length_drop. lia.
  - cbn [logx.attrs_loop]. destruct (Nat.ltb_spec (i + 1) (length kv)) as [Hlt|Hge].
    + destruct (lookup_lt_is_Some_2 kv i) as [key Hkey]; [lia|].
      destruct (lookup_lt_is_Some_2 kv (i + 1)) as [val Hval]; [lia|].
      rewrite Hkey, Hval, IH by lia.
      rewrite (drop_S _ _ _ Hkey).
      replace (S i) with (i + 1)%nat by lia.
      rewrite (drop_S _ _ _ Hval).
      replace (S (i + 1)) with (i + 2)%nat by lia.
      cbn [logx.pairAttrs]. now rewrite <- app_assoc.
    + rewrite pairAttrs_short, app_nil_r; [reflexivity|].
      rewrite length_drop. lia.
Qed.

Lemma argsToAttrs_pairAttrs (kv : list any) : argsToAttrs kv = pairAttrs kv.
Proof.
  unfold logx.argsToAttrs.
  destruct (Nat.eqb_spec (length kv mod 2) 0) as [Heven|Hodd]; cbn [negb].
  - rewrite attrs_loop_pairs by lia. reflexivity.
  - rewrite attrs_loop_pairs by lia. cbn [drop app].
    apply pairAttrs_drop_last, Hodd.
Qed.

End Pairs.

Lemma attrsToAny_length (attrs : list Attr) :
  length (attrsToAny attrs) = length attrs.
Proof. apply length_map. Qed.

(** C7: the facade pairs its arguments two by two, so [n] arguments
    give [n / 2] attributes; an argument left over at the end is
    dropped without notice; a key that is a string is kept and any
    other key is replaced by its default rendering.  The four level
    functions log exactly these attributes. *)
Theorem argsToAttrs_pairs (Sprint : any -> string) :
  (forall kv, argsToAttrs Sprint kv = pairAttrs Sprint kv)
  /\ (forall kv, length (argsToAttrs Sprint kv) = (length kv / 2)%nat)
  /\ (forall ps x,
        argsToAttrs Sprint (unpair ps ++ [x]) = argsToAttrs Sprint (unpair ps)
        /\ argsToAttrs Sprint (unpair ps) =
             map (fun p => slog_Any (keyText Sprint p.1) p.2) ps)
  /\ (forall key,
        keyText Sprint key = match key with VString k => k | _ => Sprint key end)
  /\ (forall msg kv,
        call_args (Debug Sprint msg kv) = attrsToAny (argsToAttrs Sprint kv)
        /\ call_args (Info Sprint msg kv) = attrsToAny (argsToAttrs Sprint kv)
        /\ call_args (Warn Sprint msg kv) = attrsToAny (argsToAttrs Sprint kv)
        /\ call_args (Error Sprint msg kv) = attrsToAny (argsToAttrs Sprint kv)
        /\ length (attrsToAny (argsToAttrs Sprint kv)) = (length kv / 2)%nat).
Proof.
  split; [apply argsToAttrs_pairAttrs|].
  split; [intros kv; rewrite argsToAttrs_pairAttrs; apply pairAttrs_length|].
  split.
  { intros ps x. rewrite !argsToAttrs_pairAttrs.
    split; [apply pairAttrs_unpair_extra|apply pairAttrs_unpair]. }
  split; [intros key; reflexivity|].
  intros msg kv. repeat (split; [reflexivity|]).
  rewrite attrsToAny_length, argsToAttrs_pairAttrs. apply pairAttrs_length.
Qed.

(** With an error at hand the extracted attributes come first and the
    paired arguments follow. *)
Lemma ErrorErr_args Sprint errorAttrs (msg : string) (e : crdberrors.errNode) kv :
  call_args (ErrorErr Sprint errorAttrs msg (Some e) kv) =
    attrsToAny (errorAttrs e) ++ attrsToAny (pairAttrs Sprint kv).
Proof.
  cbn [ErrorErr call_args]. rewrite argsToAttrs_pairAttrs.
  unfold attrsToAny. apply map_app.
Qed.

(** X13: with a nil error [ErrorErr] and [WarnErr] are [Error] and
    [Warn]; with an error at hand they log at their own level the
    attributes taken from the error followed by the caller's arguments
    paired two by two, a trailing single argument dropped. *)
Theorem ErrorErr_WarnErr_args (Sprint : any -> string)
    (errorAttrs warnAttrs : crdberrors.errNode -> list Attr) (msg : string)
    (kv : list any) :
  ErrorErr Sprint errorAttrs msg None kv = Error Sprint msg kv
  /\ WarnErr Sprint warnAttrs msg None kv = Warn Sprint msg kv
  /\ (forall e,
        call_level (ErrorErr Sprint errorAttrs msg (Some e) kv) = LevelError
        /\ call_args (ErrorErr Sprint errorAttrs msg (Some e) kv)
           = attrsToAny (errorAttrs e) ++ attrsToAny (pairAttrs Sprint kv)
        /\ length (call_args (ErrorErr Sprint errorAttrs msg (Some e) kv))
           = (length (errorAttrs e) + length kv / 2)%nat)
  /\ (forall e,
        call_level (WarnErr Sprint warnAttrs msg (Some e) kv) = LevelWarn
        /\ call_args (WarnErr Sprint warnAttrs msg (Some e) kv)
           = attrsToAny (warnAttrs e) ++ attrsToAny (pairAttrs Sprint kv)
        /\ length (call_args (WarnErr Sprint warnAttrs msg (Some e) kv))
           = (length (warnAttrs e) + length kv / 2)%nat).
Proof.
  split; [reflexivity|]. split; [reflexivity|].
  split; intros e; cbn [ErrorErr WarnErr call_level call_args];
    rewrite argsToAttrs_pairAttrs;
    (split; [reflexivity|]); unfold attrsToAny;
    (split; [apply map_app|]);
    rewrite length_map, length_app, pairAttrs_length; reflexivity.
Qed.

(** The error made from a recovered value carries no mark and no
    domain, whatever the value prints as. *)
Lemma panicError_unclassified (Sprint : any -> string) (r : any) :
  panicError Sprint r <> None
  /\ option_map crdberrors.Error (panicError Sprint r)
     = Some ("panic recovered: " +:+ Sprint r)
  /\ domain.IsTemporary (panicError Sprint r) = false
  /\ domain.IsPermanent (panicError Sprint r) = false
  /\ crdberrors.GetDomain (panicError Sprint r) = crdberrors.NoDomain.
Proof. repeat split. discriminate. Qed.


End logx_facts.

(** ** Properties of the manual recovery *)

Module panicdemo_facts.
Import crdberrors logx panicdemo.



End panicdemo_facts.

(** ** Properties of the user store *)

Module httpdemo_facts.
Import crdberrors domain httpdemo.

Lemma NewUserService_size t1 t2 t3 : size (NewUserService t1 t2 t3) = 3%nat.
Proof.
  unfold NewUserService.
  rewrite !map_size_insert_None, map_size_empty; [reflexivity|..];
    repeat (rewrite lookup_insert_ne by lia); apply lookup_empty.
Qed.

Lemma NewUserService_dense t1 t2 t3 : dense (NewUserService t1 t2 t3).
Proof.
  intros k. rewrite NewUserService_size. unfold NewUserService.
  rewrite !lookup_insert_is_Some, lookup_empty, is_Some_alt. lia.
Qed.

Lemma GetUser_frame now id (users : gmap Z User) : (GetUser now id users).2 = users.
Proof.
  unfold GetUser. destruct (int64.rem now 10 =? 0); [reflexivity|].
  destruct (users !! id); reflexivity.
Qed.

Lemma CreateUser_ok now name email (users : gmap Z User) :
  name <> "" -> email <> "" ->
  CreateUser now name email users =
    let newID := Z.of_nat (size users) + 1 in
    let user := mkUser newID name email now in
    (Some user, None, <[newID := user]> users).
Proof.
  intros Hn He. unfold CreateUser.
  destruct (String.eqb_spec name ""); [contradiction|].
  destruct (String.eqb_spec email ""); [contradiction|]. reflexivity.
Qed.

Lemma CreateUser_invalid now name email (users : gmap Z User) :
  name = "" \/ email = "" ->
  exists e, CreateUser now name email users = (None, Some e, users)
            /\ IsPermanent (Some e) = true.
Proof.
  intros H. unfold CreateUser.
  destruct (String.eqb_spec name "") as [Hn|Hn].
  - eexists. split; reflexivity.
  - destruct (String.eqb_spec email "") as [He|He]; [|tauto].
    eexists. split; reflexivity.
Qed.

Lemma CreateUser_frame_invalid now name email (users : gmap Z User) :
  name = "" \/ email = "" -> (CreateUser now name email users).2 = users.
Proof.
  intros H. destruct (CreateUser_invalid now name email users H) as (e & -> & _).
  reflexivity.
Qed.

Lemma dense_fresh (users : gmap Z User) :
  dense users -> users !! (Z.of_nat (size users) + 1) = None.
Proof.
  intros Hd. apply eq_None_not_Some. rewrite (Hd _). lia.
Qed.

Lemma CreateUser_dense now name email (users : gmap Z User) :
  dense users -> dense (CreateUser now name email users).2.
Proof.
  intros Hd.
  destruct (String.eqb_spec name "") as [Hn|Hn];
    [rewrite CreateUser_frame_invalid by tauto; exact Hd|].
  destruct (String.eqb_spec email "") as [He|He];
    [rewrite CreateUser_frame_invalid by tauto; exact Hd|].
  rewrite CreateUser_ok by assumption. cbn [snd]. intros k.
  rewrite map_size_insert_None by (apply dense_fresh, Hd).
  rewrite lookup_insert_is_Some, (Hd k). lia.
Qed.

Lemma reachable_dense (users : gmap Z User) : reachable users -> dense users.
Proof.
  induction 1 as [t1 t2 t3|now id users _ IH|now name email users _ IH].
  - apply NewUserService_dense.
  - now rewrite GetUser_frame.
  - now apply CreateUser_dense.
Qed.

(** C9: on every store the server can hold, [GetUser] leaves the
    store as it is; [CreateUser] with a name and an email adds one
    entry under the unused key [len(users)+1] and keeps every other
    entry; with an empty name or email it returns a permanent error
    and leaves the store as it is. *)
Theorem store_frame (users : gmap Z User) :
  reachable users ->
  (forall now id, (GetUser now id users).2 = users)
  /\ (forall now name email,
        name <> "" -> email <> "" ->
        let newID := Z.of_nat (size users) + 1 in
        let user := mkUser newID name email now in
        CreateUser now name email users = (Some user, None, <[newID := user]> users)
        /\ users !! newID = None
        /\ (CreateUser now name email users).2 !! newID = Some user
        /\ size (CreateUser now name email users).2 = S (size users)
        /\ (forall k u, users !! k = Some u ->
                        (CreateUser now name email users).2 !! k = Some u))
  /\ (forall now name email,
        name = "" \/ email = "" ->
        exists e, CreateUser now name email users = (None, Some e, users)
                  /\ IsPermanent (Some e) = true).
Proof.
  intros Hreach. pose proof (reachable_dense users Hreach) as Hd.
  split; [intros now id; apply GetUser_frame|].
  split; [|intros now name email; apply CreateUser_invalid].
  intros now name email Hn He newID user.
  pose proof (dense_fresh users Hd) as Hfresh. fold newID in Hfresh.
  rewrite CreateUser_ok by assumption. cbn [snd]. fold newID. fold user.
  split; [reflexivity|]. split; [assumption|].
  split; [apply lookup_insert_eq|].
  split; [now apply map_size_insert_None|].
  intros k u Hk. rewrite lookup_insert_ne; [assumption|]. congruence.
Qed.

Lemma store_frame_initial :
  let users := NewUserService 1700000001 1700000001 1700000001 in
  (GetUser 1700000002 2 users).2 = users
  /\ (CreateUser 1700000003 "David" "david@example.com" users).2 !! 4
     = Some (mkUser 4 "David" "david@example.com" 1700000003)
  /\ (CreateUser 1700000003 "David" "david@example.com" users).2 !! 1 = users !! 1
  /\ (CreateUser 1700000003 "" "" users).2 = users.
Proof.
  intros users.
  destruct (store_frame users (reach_new 1700000001 1700000001 1700000001))
    as (Hget & Hcreate & Hinvalid).
  split; [apply Hget|].
  destruct (Hcreate 1700000003 "David" "david@example.com")
    as (_ & _ & Hnew & _ & Hkeep); [discriminate|discriminate|].
  split; [exact Hnew|].
  split; [apply (Hkeep 1 (mkUser 1 "Alice" "alice@example.com" 1700000001));
          reflexivity|].
  destruct (Hinvalid 1700000003 "" "") as (e & -> & _); [left; reflexivity|].
  reflexivity.
Defined.

(** The freshness of [len(users)+1] rests on the store being one the
    server can hold: on a store with a gap the new entry replaces an
    old one. *)
Lemma CreateUser_overwrites_on_gap :
  let users : gmap Z User :=
    <[3 := mkUser 3 "Charlie" "charlie@example.com" 0]>
      (<[1 := mkUser 1 "Alice" "alice@example.com" 0]> ∅) in
  (CreateUser 5 "David" "david@example.com" users).2 !! 3
    = Some (mkUser 3 "David" "david@example.com" 5).
Proof. reflexivity. Qed.

(** *** Stored users and lookups *)

Lemma CreateUser_ids_match now name email (users : gmap Z User) :
  ids_match users -> ids_match (CreateUser now name email users).2.
Proof.
  intros Hm.
  destruct (String.eqb_spec name "") as [Hn|Hn];
    [rewrite CreateUser_frame_invalid by tauto; exact Hm|].
  destruct (String.eqb_spec email "") as [He|He];
    [rewrite CreateUser_frame_invalid by tauto; exact Hm|].
  rewrite CreateUser_ok by assumption. cbn [snd]. intros k u.
  rewrite lookup_insert. case_decide as Hk.
  - intros [= <-]. cbn [ID]. exact Hk.
  - apply Hm.
Qed.

(** X16: in every store the service can hold, each user is stored
    under its own [ID]. *)
Theorem reachable_ids_match (users : gmap Z User) :
  reachable users -> ids_match users.
Proof.
  induction 1 as [t1 t2 t3|now id users _ IH|now name email users _ IH].
  - intros k u. unfold NewUserService.
    rewrite !lookup_insert. repeat case_decide; subst;
      try (intros [= <-]; reflexivity);
      try (rewrite lookup_empty; discriminate).
  - now rewrite GetUser_frame.
  - now apply CreateUser_ids_match.
Qed.

Lemma reachable_ids_match_example :
  ids_match (CreateUser 1700000003 "David" "david@example.com"
               (NewUserService 1700000001 1700000001 1700000001)).2.
Proof.
  apply reachable_ids_match. apply reach_create. apply reach_new.
Defined.

Lemma GetUser_found now id (users : gmap Z User) (u : User) :
  int64.rem now 10 <> 0 -> users !! id = Some u ->
  GetUser now id users = (Some u, None, users).
Proof.
  intros Hnow Hu. unfold GetUser.
  destruct (Z.eqb_spec (int64.rem now 10) 0); [contradiction|].
  now rewrite Hu.
Qed.

(** X17: a user created on a store the service can hold is found by
    [GetUser] under the returned id, and every user stored before is
    still found unchanged (on a clock reading that is not a multiple
    of ten seconds, when [GetUser] reaches the store at all). *)
Theorem create_then_get (users : gmap Z User) (now now' : Z) (name email : string) :
  reachable users ->
  name <> "" -> email <> "" ->
  int64.rem now' 10 <> 0 ->
  exists user users',
    CreateUser now name email users = (Some user, None, users')
    /\ GetUser now' (ID user) users' = (Some user, None, users')
    /\ (forall id u, users !! id = Some u ->
                     GetUser now' id users' = (Some u, None, users')).
Proof.
  intros Hreach Hn He Hnow. pose proof (reachable_dense users Hreach) as Hd.
  rewrite CreateUser_ok by assumption. cbv zeta.
  eexists. eexists. split; [reflexivity|]. cbn [ID]. split.
  - apply GetUser_found; [assumption|apply lookup_insert_eq].
  - intros id u Hu. apply GetUser_found; [assumption|].
    rewrite lookup_insert_ne; [assumption|].
    intros <-. rewrite (dense_fresh users Hd) in Hu. discriminate.
Qed.

Lemma create_then_get_example :
  exists user users',
    CreateUser 1700000003 "David" "david@example.com"
      (NewUserService 1700000001 1700000001 1700000001) = (Some user, None, users')
    /\ GetUser 1700000004 (ID user) users' = (Some user, None, users')
    /\ (forall id u,
          NewUserService 1700000001 1700000001 1700000001 !! id = Some u ->
          GetUser 1700000004 id users' = (Some u, None, users')).
Proof.
  apply (create_then_get (NewUserService 1700000001 1700000001 1700000001)
           1700000003 1700000004 "David" "david@example.com").
  - apply reach_new.
  - discriminate.
  - discriminate.
  - vm_compute. discriminate.
Defined.

Lemma timeoutError_classified :
  IsTemporary timeoutError = true /\ IsPermanent timeoutError = false
  /\ GetDomain timeoutError = DomainAdapters.
Proof. repeat split. Qed.

Lemma notFoundError_classified (id : Z) :
  IsTemporary (notFoundError id) = false /\ IsPermanent (notFoundError id) = true
  /\ GetDomain (notFoundError id) = DomainAdapters
  /\ option_map Error (notFoundError id)
     = Some ("user with id " +:+ itoa id +:+ " not found").
Proof. repeat split. Qed.

(** X18: [GetUser] returns a user exactly when it returns no error.
    On a clock reading that is a multiple of ten seconds it fails with
    a temporary error whether or not the id exists; otherwise it
    returns the stored user, or a permanent error for an id that is not
    stored.  Both errors carry the adapters domain and no error is
    temporary and permanent at once. *)
Theorem GetUser_outcome (now id : Z) (users : gmap Z User) :
  let timeout := int64.rem now 10 =? 0 in
  let missing := match users !! id with Some _ => false | None => true end in
  (GetUser now id users).1.1 = (if timeout then None else users !! id)
  /\ IsTemporary (GetUser now id users).1.2 = timeout
  /\ IsPermanent (GetUser now id users).1.2 = negb timeout && missing
  /\ GetDomain (GetUser now id users).1.2
     = (if timeout || missing then DomainAdapters else NoDomain)
  /\ ((GetUser now id users).1.2 = None <-> is_Some (GetUser now id users).1.1).
Proof.
  intros timeout missing. subst timeout missing. unfold GetUser.
  destruct (int64.rem now 10 =? 0).
  - cbn [fst snd negb andb orb].
    repeat split; try discriminate; try (intros [u Hu]; discriminate).
  - destruct (users !! id) as [u|]; cbn [fst snd negb andb orb].
    + repeat split; eauto.
    + repeat split; try discriminate; try (intros [u Hu]; discriminate).
Qed.

(** *** The handlers *)

Section HandlerFacts.
Variable Atoi : string -> Z * error.
Variable GetAllHints : errNode -> list string.
Variable FormatDomain : Domain -> string.

Local Abbreviation getUserHandler := (httpdemo.getUserHandler Atoi GetAllHints FormatDomain).
Local Abbreviation createUserHandler := (httpdemo.createUserHandler GetAllHints FormatDomain).

(** X19: [getUserHandler] never changes the store and answers every
    request exactly once: 400 when the id in the path is not a number,
    otherwise 500 on a clock reading that is a multiple of ten
    seconds, otherwise 200 with the stored user, or 404 with the
    not-found message and the adapters domain as code. *)
Theorem getUserHandler_response (header path : string) (nano now : Z)
    (users : gmap Z User) :
  (getUserHandler header path nano now users).2 = users
  /\ exists status body,
       responses (getUserHandler header path nano now users).1 = [(status, body)]
       /\ match Atoi (trimSlash (TrimPrefix path "/users/")) with
          | (_, Some _) => status = StatusBadRequest
          | (id, None) =>
              if int64.rem now 10 =? 0 then status = StatusInternalServerError
              else
                match users !! id with
                | Some u => status = StatusOK /\ body = BodyUser u
                | None =>
                    status = StatusNotFound
                    /\ body =
                         BodyError
                           (mkErrorResponse
                              ("user with id " +:+ itoa id +:+ " not found")
                              (FormatDomain DomainAdapters)
                              (match notFoundError id with
                               | Some e =>
                                   match GetAllHints e with h :: _ => h | [] => "" end
                               | None => ""
                               end))
                end
          end.
Proof.
  unfold httpdemo.getUserHandler.
  destruct (Atoi (trimSlash (TrimPrefix path "/users/"))) as [id [e|]].
  - split; [reflexivity|]. unfold Wrap. cbn [String.eqb].
    eexists. eexists. split; reflexivity.
  - unfold GetUser. destruct (int64.rem now 10 =? 0).
    + split; [reflexivity|]. eexists. eexists. split; reflexivity.
    + destruct (users !! id) as [u|].
      * split; [reflexivity|]. eexists. eexists. split; [reflexivity|].
        split; reflexivity.
      * split; [reflexivity|]. eexists. eexists. split; [reflexivity|].
        split; reflexivity.
Qed.

(** X20: [createUserHandler] answers every request exactly once, with
    201 or 400 and never with 500: 201 with the new user when the body
    decoded cleanly to a non-empty name and email, 400 otherwise.  The
    store changes only together with a 201. *)
Theorem createUserHandler_response (header : string) (nano now : Z)
    (decoded : decodeResult) (users : gmap Z User) :
  exists status body,
    responses (createUserHandler header nano now decoded users).1 = [(status, body)]
    /\ (status = StatusCreated \/ status = StatusBadRequest)
    /\ match decoded with
       | Decoded name email false =>
           if String.eqb name "" || String.eqb email "" then
             status = StatusBadRequest
             /\ (createUserHandler header nano now decoded users).2 = users
           else
             let user := mkUser (Z.of_nat (size users) + 1) name email now in
             status = StatusCreated /\ body = BodyUser user
             /\ (createUserHandler header nano now decoded users).2
                = <[ID user := user]> users
       | _ =>
           status = StatusBadRequest
           /\ (createUserHandler header nano now decoded users).2 = users
       end.
Proof.
  unfold httpdemo.createUserHandler. destruct decoded as [e|name email [|]].
  - eexists. eexists. split; [reflexivity|]. split; [right; reflexivity|].
    split; reflexivity.
  - eexists. eexists. split; [reflexivity|]. split; [right; reflexivity|].
    split; reflexivity.
  - unfold CreateUser. destruct (String.eqb name "").
    + eexists. eexists. split; [reflexivity|]. split; [right; reflexivity|].
      split; reflexivity.
    + destruct (String.eqb email "").
      * eexists. eexists. split; [reflexivity|]. split; [right; reflexivity|].
        split; reflexivity.
      * eexists. eexists. split; [reflexivity|]. split; [left; reflexivity|].
        cbn [orb]. repeat split.
Qed.

End HandlerFacts.

End httpdemo_facts.
